(** * HSA_Demo: the account ledger of [app.py]

    A shallow embedding of the data layer and the business logic of
    [app.py] (the Flask routes are glue and are not modelled), followed by
    the properties of the ledger.

    Conventions of the model
    - a Python [float] is a binary64 number: Rocq's primitive [float], whose
      [+], [-], [<?] and [<=?] are the IEEE 754 operations Python uses;
    - a Python [int] is a [Z];
    - a Python [str] is a [string]; the text is taken to be ASCII, on which
      [str.strip] removes the characters Python calls whitespace and
      [str.lower] maps [A-Z] to [a-z];
    - the module-level list [accounts] and the file [database.json] form the
      state ([World]), passed explicitly; an account dict found by a lookup is
      a reference into the list, modelled by its position: mutating it
      rewrites that position;
    - the account dicts have the six keys [create_an_account] gives them. *)

From Stdlib Require Import ZArith String Ascii Floats DecimalString DecimalN.
From stdpp Require Import base list strings gmap.

Local Open Scope string_scope.
Local Open Scope Z_scope.

(** ** Strings: [str.strip] and [str.lower] *)

(** [str.isspace] on one ASCII character: TAB, LF, VT, FF, CR, FS, GS, RS, US
    and the space. *)
Definition is_space (c : ascii) : bool :=
  let n := nat_of_ascii c in
  ((9 <=? n)%nat && (n <=? 13)%nat) || ((28 <=? n)%nat && (n <=? 32)%nat).

Fixpoint lstrip (s : string) : string :=
  match s with
  | EmptyString => EmptyString
  | String c s' => if is_space c then lstrip s' else s
  end.

Fixpoint rstrip (s : string) : string :=
  match s with
  | EmptyString => EmptyString
  | String c s' =>
      match rstrip s' with
      | EmptyString => if is_space c then EmptyString else String c EmptyString
      | r => String c r
      end
  end.

(** [s.strip()] *)
Definition strip (s : string) : string := rstrip (lstrip s).

Definition lower_char (c : ascii) : ascii :=
  let n := nat_of_ascii c in
  if ((65 <=? n)%nat && (n <=? 90)%nat) then ascii_of_nat (n + 32) else c.

(** [s.lower()] *)
Fixpoint lower (s : string) : string :=
  match s with
  | EmptyString => EmptyString
  | String c s' => String (lower_char c) (lower s')
  end.

(** The strings on which [strip] and [lower] above are Python's: those made
    of ASCII characters only. The properties that would not hold of the code
    on other text carry this as a hypothesis. *)
Definition is_ascii (c : ascii) : bool := (nat_of_ascii c <? 128)%nat.

Fixpoint ascii_text (s : string) : bool :=
  match s with
  | EmptyString => true
  | String c s' => is_ascii c && ascii_text s'
  end.

(** A string that does not begin with whitespace. *)
Definition no_lead (s : string) : Prop :=
  match s with
  | EmptyString => True
  | String c _ => is_space c = false
  end.

(** ** Data model *)

(** A transaction dict: [{"type", "amount", "status", "date"}]. [status] is
    [None] between the construction of the dict and the decision. *)
Record Transaction := mkTransaction {
  type : string;
  amount : float;
  status : option string;
  date : string;
}.

(** An account dict. *)
Record Account := mkAccount {
  name : string;
  email : string;
  id : Z;
  balance : float;
  card_number : option string;
  transactions : list Transaction;
}.

(** ** JSON values and the data file *)

#[warnings="-register-all"] Inductive json :=
  | JNull
  | JBool (b : bool)
  | JInt (z : Z)
  | JFloat (f : float)
  | JStr (s : string)
  | JList (l : list json)
  | JDict (kvs : list (string * json)).

(** The condition of [DATA_FILE] on disk. A file whose text is a JSON document
    is identified with the value that document denotes. *)
Inductive file_state :=
  | FileAbsent
  | FileUnreadable
  | FileCorrupt
  | FileJson (v : json).

(** The exceptions of the model. [KeyboardInterrupt] is the one that is not
    an [Exception]. *)
Inductive exn :=
  | FileNotFoundError
  | PermissionError
  | JSONDecodeError
  | KeyboardInterrupt.

Definition is_Exception (e : exn) : bool :=
  match e with
  | KeyboardInterrupt => false
  | _ => true
  end.

Inductive outcome (A : Type) :=
  | Return (a : A)
  | Raise (e : exn).
Arguments Return {A} a.
Arguments Raise {A} e.

Definition bind {A B} (m : outcome A) (k : A -> outcome B) : outcome B :=
  match m with
  | Return a => k a
  | Raise e => Raise e
  end.

(** [try: body except Exception: handler] *)
Definition try_except_Exception {A} (body handler : outcome A) : outcome A :=
  match body with
  | Return a => Return a
  | Raise e => if is_Exception e then handler else Raise e
  end.

(** [open(DATA_FILE, "r")] followed by [json.load(f)]. *)
Definition open_r (fs : file_state) : outcome file_state :=
  match fs with
  | FileAbsent => Raise FileNotFoundError
  | FileUnreadable => Raise PermissionError
  | _ => Return fs
  end.

Definition json_load (f : file_state) : outcome json :=
  match f with
  | FileJson v => Return v
  | _ => Raise JSONDecodeError
  end.

Definition load_data (fs : file_state) : outcome (list json) :=
  try_except_Exception
    (bind (open_r fs) (fun f =>
     bind (json_load f) (fun data =>
       match data with
       | JList l => Return l
       | _ => Return []
       end)))
    (Return []).

(** What [json.dump] writes for the collection. *)
Definition option_to_json (o : option string) : json :=
  match o with
  | None => JNull
  | Some s => JStr s
  end.

Definition transaction_to_json (t : Transaction) : json :=
  JDict [("type", JStr (type t)); ("amount", JFloat (amount t));
         ("status", option_to_json (status t)); ("date", JStr (date t))].

Definition account_to_json (a : Account) : json :=
  JDict [("name", JStr (name a)); ("email", JStr (email a));
         ("id", JInt (id a)); ("balance", JFloat (balance a));
         ("card_number", option_to_json (card_number a));
         ("transactions", JList (map transaction_to_json (transactions a)))].

(** The process state: the global [accounts] and the file. *)
Record World := mkWorld {
  accounts : list Account;
  data_file : file_state;
}.

(** [save_data()]: the whole collection overwrites the file. *)
Definition save_data (w : World) : World :=
  {| accounts := accounts w;
     data_file := FileJson (JList (map account_to_json (accounts w))) |}.

(** ** Business logic *)

Definition ALLOWED_EXPENSES : gset string :=
  {[ "doctor"; "prescription"; "dental"; "vision"; "therapy"; "lab" ]}.

(** [get_account]: the first account with that id, as its position in the
    list and its current contents. *)
Definition get_account (accts : list Account) (aid : Z) : option (nat * Account) :=
  list_find (fun a => id a = aid) accts.

Definition get_account_by_email (accts : list Account) (email0 : string)
  : option (nat * Account) :=
  let e := lower (strip email0) in
  list_find (fun a => lower (strip (email a)) = e) accts.

Definition create_an_account (w : World) (name0 email0 : string)
  : option Account * World :=
  let n := strip name0 in
  let e := lower (strip email0) in
  match get_account_by_email (accounts w) e with
  | Some _ => (None, w)
  | None =>
      let new_id := Z.of_nat (length (accounts w)) + 1 in
      let new_account :=
        {| name := n; email := e; id := new_id; balance := 0%float;
           card_number := None; transactions := [] |} in
      (Some new_account,
       save_data {| accounts := accounts w ++ [new_account];
                    data_file := data_file w |})
  end.

Definition set_balance (b : float) (a : Account) : Account :=
  {| name := name a; email := email a; id := id a; balance := b;
     card_number := card_number a; transactions := transactions a |}.

Definition set_card_number (c : option string) (a : Account) : Account :=
  {| name := name a; email := email a; id := id a; balance := balance a;
     card_number := c; transactions := transactions a |}.

(** [acct["transactions"].append(txn)] *)
Definition append_transaction (t : Transaction) (a : Account) : Account :=
  {| name := name a; email := email a; id := id a; balance := balance a;
     card_number := card_number a; transactions := transactions a ++ [t] |}.

(** Writing through the reference at position [i]. *)
Definition store (w : World) (i : nat) (a : Account) : World :=
  {| accounts := <[i := a]> (accounts w); data_file := data_file w |}.

Definition deposit_funds (w : World) (account_id : Z) (amount0 : float)
  : option Account * World :=
  match get_account (accounts w) account_id with
  | None => (None, w)
  | Some (i, acct) =>
      let acct := set_balance (balance acct + amount0)%float acct in
      (Some acct, save_data (store w i acct))
  end.

(** [format(n, "04d")]: the decimal digits, zero-filled after the sign to a
    width of four. *)
Definition digits (n : Z) : string :=
  NilZero.string_of_uint (N.to_uint (Z.to_N (Z.abs n))).

Fixpoint zeros (k : nat) : string :=
  match k with
  | O => EmptyString
  | S k' => String "0" (zeros k')
  end.

Definition format_04d (n : Z) : string :=
  let d := digits n in
  if n <? 0 then "-" ++ zeros (3 - String.length d) ++ d
  else zeros (4 - String.length d) ++ d.

(** The truth value of [acct.get("card_number")]. *)
Definition truthy (c : option string) : bool :=
  match c with
  | None => false
  | Some EmptyString => false
  | Some _ => true
  end.

Definition issue_card (w : World) (account_id : Z) : option Account * World :=
  match get_account (accounts w) account_id with
  | None => (None, w)
  | Some (i, acct) =>
      if truthy (card_number acct) then (Some acct, w)
      else
        let acct :=
          set_card_number (Some ("4000-0000-0000-" ++ format_04d account_id)) acct in
        (Some acct, save_data (store w i acct))
  end.

Definition set_status (s : string) (t : Transaction) : Transaction :=
  {| type := type t; amount := amount t; status := Some s; date := date t |}.

(** [validate_transaction]; [now] is the text
    [datetime.utcnow().strftime(...)] yields at the call. *)
Definition validate_transaction (w : World) (account_id : Z) (amount0 : float)
    (etype now : string) : string * World :=
  match get_account (accounts w) account_id with
  | None => ("denied", w)
  | Some (i, acct) =>
      let txn := {| type := etype; amount := amount0; status := None; date := now |} in
      if negb (bool_decide (lower (strip etype) ∈ ALLOWED_EXPENSES)) then
        let txn := set_status "denied" txn in
        let acct := append_transaction txn acct in
        ("denied", save_data (store w i acct))
      else if (balance acct <? amount0)%float then
        let txn := set_status "denied" txn in
        let acct := append_transaction txn acct in
        ("denied", save_data (store w i acct))
      else
        let txn := set_status "approved" txn in
        let acct := append_transaction txn acct in
        let acct := set_balance (balance acct - amount0)%float acct in
        ("approved", save_data (store w i acct))
  end.

(** ** Auxiliary predicates on binary64 values *)

(** [x] is a zero, an infinity or a finite number of sign [s]. *)
Definition has_sign (s : bool) (x : spec_float) : Prop :=
  match x with
  | S754_zero s' | S754_infinity s' | S754_finite s' _ _ => s' = s
  | S754_nan => False
  end.

(** [0 <= x] on specification floats. *)
Definition SFnonneg (x : spec_float) : Prop := SFleb (S754_zero false) x = true.

(** [x] is neither a NaN nor an infinity. *)
Definition SFreal (x : spec_float) : Prop :=
  match x with
  | S754_zero _ | S754_finite _ _ _ => True
  | _ => False
  end.

(** [0 <= x], and "[x] is a real number", on the floats of the code. *)
Definition nonneg (x : float) : Prop := (0 <=? x)%float = true.
Definition real (x : float) : Prop := is_finite x = true.

(** ** Runs of the ledger *)

(** One call of the front end into the business logic. *)
Inductive call :=
  | CreateAccount (name0 email0 : string)
  | DepositFunds (account_id : Z) (amount0 : float)
  | IssueCard (account_id : Z)
  | ValidateTransaction (account_id : Z) (amount0 : float) (etype now : string).

Definition perform (w : World) (c : call) : World :=
  match c with
  | CreateAccount n e => snd (create_an_account w n e)
  | DepositFunds aid x => snd (deposit_funds w aid x)
  | IssueCard aid => snd (issue_card w aid)
  | ValidateTransaction aid x t now => snd (validate_transaction w aid x t now)
  end.

Definition run (w : World) (cs : list call) : World := fold_left perform cs w.

(** The process before the first account is created. *)
Definition initial (fs : file_state) : World :=
  {| accounts := []; data_file := fs |}.

(** Calls whose deposit amounts are non-negative and whose transaction
    amounts are real numbers. *)
Definition admissible (c : call) : Prop :=
  match c with
  | DepositFunds _ x => nonneg x
  | ValidateTransaction _ x _ _ => real x
  | _ => True
  end.

Definition balances_nonneg (w : World) : Prop :=
  Forall (fun a => nonneg (balance a)) (accounts w).

(** [a'] is held by the same person as [a], under the same id and card. *)
Definition same_holder (a a' : Account) : Prop :=
  name a' = name a /\ email a' = email a /\ id a' = id a /\
  card_number a' = card_number a.

(** The scenario of the specification: Alice opens an account and deposits
    100. *)
Definition alice_world : World :=
  run (initial FileAbsent)
    [CreateAccount "Alice" "alice@x.com"; DepositFunds 1 100%float].

Definition alice : Account :=
  {| name := "Alice"; email := "alice@x.com"; id := 1; balance := 100%float;
     card_number := None; transactions := [] |}.

(** ** What one call may do to the collection *)

(** A recorded transaction carries a decision. *)
Definition decided (t : Transaction) : Prop :=
  status t = Some "approved" \/ status t = Some "denied".

(** The card of an account is absent or the one [issue_card] derives from
    its id. *)
Definition card_ok (a : Account) : Prop :=
  card_number a = None \/
  card_number a = Some ("4000-0000-0000-" ++ format_04d (id a)).

(** One write through a found account: the holder and the id stay, the card
    is at most issued, the history at most gains one decided record. *)
Definition account_step (a a' : Account) : Prop :=
  name a' = name a /\ email a' = email a /\ id a' = id a /\
  (card_number a' = card_number a \/
   (truthy (card_number a) = false /\
    card_number a' = Some ("4000-0000-0000-" ++ format_04d (id a)))) /\
  (transactions a' = transactions a \/
   exists t, decided t /\ transactions a' = (transactions a ++ [t])%list).

(** The file holds the collection that is in memory. *)
Definition synced (w : World) : Prop :=
  data_file w = FileJson (JList (map account_to_json (accounts w))).

Inductive world_step (w w' : World) : Prop :=
  | step_none : w' = w -> world_step w w'
  | step_create acct :
      accounts w' = (accounts w ++ [acct])%list ->
      Forall (fun a => lower (strip (email a)) <> email acct) (accounts w) ->
      lower (strip (email acct)) = email acct ->
      id acct = Z.of_nat (length (accounts w)) + 1 ->
      card_number acct = None ->
      transactions acct = [] ->
      synced w' ->
      world_step w w'
  | step_update i a a' :
      accounts w !! i = Some a ->
      account_step a a' ->
      accounts w' = <[i := a']> (accounts w) ->
      synced w' ->
      world_step w w'.

(** [a'] is a later state of the account [a]. *)
Definition grows (a a' : Account) : Prop :=
  name a' = name a /\ email a' = email a /\ id a' = id a /\
  transactions a `prefix_of` transactions a' /\
  (truthy (card_number a) = true -> card_number a' = card_number a).

(** Every account of [w] is still there in [w'], at its place, grown. *)
Definition extends (w w' : World) : Prop :=
  forall i a, accounts w !! i = Some a ->
    exists a', accounts w' !! i = Some a' /\ grows a a'.

(** The ids are 1, 2, ... in the order of the collection. *)
Definition ids_sequential (w : World) : Prop :=
  forall k a, accounts w !! k = Some a -> id a = Z.of_nat k + 1.

(** The stored emails are in normal form and pairwise distinct. *)
Definition emails_unique (w : World) : Prop :=
  Forall (fun a => lower (strip (email a)) = email a) (accounts w) /\
  NoDup (email <$> accounts w).

Definition histories_decided (w : World) : Prop :=
  Forall (fun a => Forall decided (transactions a)) (accounts w).

Definition cards_ok (w : World) : Prop := Forall card_ok (accounts w).

(** ** The Flask routes (the POST handlers)

    [request.form] is a finite map from field names to strings. The builtins
    [int] and [float] and the format [:.2f] are parameters of the model:
    [py_int] and [py_float] are [None] where the builtin raises. The string
    literals are the UTF-8 bytes of the messages of the code. A handler
    answers with the messages it flashed and the page it redirects to. *)

Record Builtins := mkBuiltins {
  py_int : string -> option Z;
  py_float : string -> option float;
  format_2f : float -> string;
}.

(** [url_for("home")] and [url_for("account_page", account_id=...)] *)
Inductive url :=
  | Home
  | AccountPage (account_id : Z).

Record Response := mkResponse {
  flashed : list string;
  location : url;
}.

Definition dquote : string := String "034"%char EmptyString.

(** [str(n)] for an int. *)
Definition str_int (n : Z) : string := NilZero.string_of_int (Z.to_int n).

(** [str(c)] for a card number, [None] included. *)
Definition str_card (c : option string) : string :=
  match c with
  | Some s => s
  | None => "None"
  end.

Definition open_account_route (w : World) (form : gmap string string)
  : Response * World :=
  let email0 := strip (default "" (form !! "email")) in
  match get_account_by_email (accounts w) email0 with
  | None =>
      ({| flashed := ["⚠️ Account with email " ++ dquote ++ email0 ++ dquote
                        ++ " not found."];
          location := Home |}, w)
  | Some (_, acct) => ({| flashed := []; location := AccountPage (id acct) |}, w)
  end.

Definition create_account_route (w : World) (form : gmap string string)
  : Response * World :=
  let name0 := strip (default "" (form !! "name")) in
  let email0 := strip (default "" (form !! "email")) in
  if bool_decide (name0 = "") || bool_decide (email0 = "") then
    ({| flashed := ["⚠️ Name and email are required."]; location := Home |}, w)
  else
    match create_an_account w name0 email0 with
    | (Some acct, w') =>
        ({| flashed := ["✅ Account created! " ++ name acct ++ " (" ++ email acct
                          ++ ") — ID #" ++ str_int (id acct)];
            location := AccountPage (id acct) |}, w')
    | (None, w') =>
        ({| flashed := ["⚠️ An account with email " ++ dquote ++ email0 ++ dquote
                          ++ " already exists. Please open it instead."];
            location := Home |}, w')
    end.

Definition deposit_route (B : Builtins) (w : World) (form : gmap string string)
  : Response * World :=
  match (aid ← form !! "account_id" ≫= py_int B;
         amount0 ← form !! "amount" ≫= py_float B;
         Some (aid, amount0)) with
  | None => ({| flashed := ["⚠️ Invalid input."]; location := Home |}, w)
  | Some (aid, amount0) =>
      let '(res, w') := deposit_funds w aid amount0 in
      ({| flashed := [match res with
                      | Some _ => "💸 Deposited $" ++ format_2f B amount0
                      | None => "⚠️ Account not found."
                      end];
          location := AccountPage aid |}, w')
  end.

Definition issue_card_route (B : Builtins) (w : World) (form : gmap string string)
  : Response * World :=
  match form !! "account_id" ≫= py_int B with
  | None => ({| flashed := ["⚠️ Invalid account id."]; location := Home |}, w)
  | Some aid =>
      let '(res, w') := issue_card w aid in
      ({| flashed := [match res with
                      | Some acct => "💳 Card: " ++ str_card (card_number acct)
                      | None => "⚠️ Account not found."
                      end];
          location := AccountPage aid |}, w')
  end.

Definition transaction_route (B : Builtins) (w : World)
    (form : gmap string string) (now : string) : Response * World :=
  match (aid ← form !! "account_id" ≫= py_int B;
         amount0 ← form !! "amount" ≫= py_float B;
         etype ← form !! "etype";
         Some (aid, amount0, etype)) with
  | None => ({| flashed := ["⚠️ Invalid input."]; location := Home |}, w)
  | Some (aid, amount0, etype) =>
      let '(result, w') := validate_transaction w aid amount0 etype now in
      let emoji := if bool_decide (result = "approved") then "✅" else "❌" in
      ({| flashed := [emoji ++ " " ++ result ++ ": $" ++ format_2f B amount0
                        ++ " (" ++ etype ++ ")"];
          location := AccountPage aid |}, w')
  end.

(** One POST request, and a session of them. *)
Inductive request :=
  | OpenAccount (form : gmap string string)
  | CreateAccountForm (form : gmap string string)
  | DepositForm (form : gmap string string)
  | IssueCardForm (form : gmap string string)
  | TransactionForm (form : gmap string string) (now : string).

Definition handle (B : Builtins) (w : World) (r : request) : Response * World :=
  match r with
  | OpenAccount form => open_account_route w form
  | CreateAccountForm form => create_account_route w form
  | DepositForm form => deposit_route B w form
  | IssueCardForm form => issue_card_route B w form
  | TransactionForm form now => transaction_route B w form now
  end.

Definition serve (B : Builtins) (w : World) (rs : list request) : World :=
  fold_left (fun w r => snd (handle B w r)) rs w.

(** Every account has a name and an email. *)
Definition holders_named (w : World) : Prop :=
  Forall (fun a => name a <> "" /\ email a <> "") (accounts w).

(** An instance of the builtins for decimal numerals, for the examples. *)
Definition decimal_int (s : string) : option Z :=
  Z.of_int <$> NilZero.int_of_string s.

Definition example_builtins : Builtins :=
  {| py_int := decimal_int;
     py_float := fun s => (fun n => of_uint63 (Uint63.of_Z n)) <$> decimal_int s;
     format_2f := fun x => "?" |}.

(** A second scenario: Alice and Bob open accounts and get their cards. *)
Definition household : list call :=
  [CreateAccount "Alice" "alice@x.com"; CreateAccount "Bob" " Bob@X.com ";
   IssueCard 1; IssueCard 2].

Definition household_world : World := run (initial FileAbsent) household.

Definition alice_with_card : Account :=
  {| name := "Alice"; email := "alice@x.com"; id := 1; balance := 0%float;
     card_number := Some "4000-0000-0000-0001"; transactions := [] |}.

Definition bob : Account :=
  {| name := "Bob"; email := "bob@x.com"; id := 2; balance := 0%float;
     card_number := Some "4000-0000-0000-0002"; transactions := [] |}.

(** * Facts about [strip] and [lower] *)

Section Strings.

Lemma lower_char_idem c : lower_char (lower_char c) = lower_char c.
Proof. destruct c as [[] [] [] [] [] [] [] []]; reflexivity. Qed.

Lemma is_space_lower_char c : is_space (lower_char c) = is_space c.
Proof. destruct c as [[] [] [] [] [] [] [] []]; reflexivity. Qed.

Lemma lower_idem s : lower (lower s) = lower s.
Proof.
  induction s as [|c s IH]; simpl; [reflexivity|].
  now rewrite lower_char_idem, IH.
Qed.

Lemma lstrip_lower s : lstrip (lower s) = lower (lstrip s).
Proof.
  induction s as [|c s IH]; simpl; [reflexivity|].
  rewrite is_space_lower_char. now destruct (is_space c).
Qed.

Lemma rstrip_lower s : rstrip (lower s) = lower (rstrip s).
Proof.
  induction s as [|c s IH]; simpl; [reflexivity|].
  rewrite IH, is_space_lower_char.
  destruct (rstrip s); simpl; [now destruct (is_space c)|reflexivity].
Qed.

Lemma strip_lower s : strip (lower s) = lower (strip s).
Proof. unfold strip. now rewrite lstrip_lower, rstrip_lower. Qed.

Lemma rstrip_idem s : rstrip (rstrip s) = rstrip s.
Proof.
  induction s as [|c s IH]; simpl; [reflexivity|].
  destruct (rstrip s) as [|d r] eqn:E.
  - destruct (is_space c) eqn:Ec; simpl; [reflexivity|now rewrite Ec].
  - change (rstrip (String c (String d r))) with
      (match rstrip (String d r) with
       | EmptyString => if is_space c then EmptyString else String c EmptyString
       | r' => String c r'
       end).
    now rewrite IH.
Qed.

Lemma lstrip_no_lead s : no_lead (lstrip s).
Proof.
  induction s as [|c s IH]; simpl; [exact I|].
  destruct (is_space c) eqn:Ec; [exact IH|exact Ec].
Qed.

Lemma rstrip_no_lead s : no_lead s -> no_lead (rstrip s).
Proof.
  destruct s as [|c s]; simpl; [trivial|]. intros Hc.
  destruct (rstrip s); [now rewrite Hc|exact Hc].
Qed.

Lemma lstrip_id s : no_lead s -> lstrip s = s.
Proof. destruct s as [|c s]; simpl; [trivial|]. now intros ->. Qed.

Lemma strip_idem s : strip (strip s) = strip s.
Proof.
  unfold strip.
  rewrite (lstrip_id (rstrip (lstrip s))).
  - apply rstrip_idem.
  - apply rstrip_no_lead, lstrip_no_lead.
Qed.

(** Normalising an email twice, as [create_an_account] followed by
    [get_account_by_email] does, is normalising it once. *)
Lemma normalize_idem s : lower (strip (lower (strip s))) = lower (strip s).
Proof. now rewrite strip_lower, lower_idem, strip_idem. Qed.

End Strings.

(** * Facts about binary64 arithmetic *)

Section SpecFloats.

Lemma SFcompare_antisym a b :
  SFcompare b a = option_map CompOpp (SFcompare a b).
Proof.
  destruct a as [sa|sa| |sa ma ea], b as [sb|sb| |sb mb eb]; simpl;
    try destruct sa; try destruct sb; try reflexivity;
    rewrite (Z.compare_antisym ea eb); destruct (ea ?= eb); simpl;
    try reflexivity;
    pose proof (Pos.compare_cont_antisym ma mb Eq) as H; simpl in H;
    rewrite <- H; now destruct (Pos.compare_cont Eq ma mb).
Qed.

Lemma SFleb_not_ltb a b : SFleb a b = true -> SFltb b a = false.
Proof.
  unfold SFleb, SFltb. rewrite (SFcompare_antisym a b).
  now destruct (SFcompare a b) as [[]|].
Qed.

(** Rounding keeps the sign. *)
Lemma iter_pos_invariant {A} (P : A -> Prop) (f : A -> A) :
  (forall x, P x -> P (f x)) -> forall p x, P x -> P (SpecFloat.iter_pos f p x).
Proof. intros Hf. induction p; simpl; auto. Qed.

Lemma shr_1_nonneg mrs : 0 <= shr_m mrs -> 0 <= shr_m (shr_1 mrs).
Proof. destruct mrs as [[|[p|p|]|[p|p|]] r s]; simpl; lia. Qed.

Lemma shr_nonneg mrs e n : 0 <= shr_m mrs -> 0 <= shr_m (fst (shr mrs e n)).
Proof.
  intros H. destruct n; simpl; trivial.
  apply (iter_pos_invariant (fun x => 0 <= shr_m x)); [apply shr_1_nonneg|exact H].
Qed.

Lemma shr_fexp_nonneg m e l :
  0 <= m -> 0 <= shr_m (fst (shr_fexp prec emax m e l)).
Proof.
  intros H. unfold shr_fexp. apply shr_nonneg.
  destruct l as [|[]]; exact H.
Qed.

Lemma round_nearest_even_nonneg m l : 0 <= m -> 0 <= round_nearest_even m l.
Proof.
  intros H. destruct l as [|[]]; simpl; try lia.
  destruct (Z.even m); lia.
Qed.

Lemma binary_round_aux_sign sx mx ex lx :
  0 <= mx -> has_sign sx (binary_round_aux prec emax sx mx ex lx).
Proof.
  intros H. unfold binary_round_aux.
  pose proof (shr_fexp_nonneg mx ex lx H) as H1.
  destruct (shr_fexp prec emax mx ex lx) as [mrs' e']. simpl in H1.
  pose proof (shr_fexp_nonneg _ e' loc_Exact
                (round_nearest_even_nonneg _ (loc_of_shr_record mrs') H1)) as H2.
  destruct (shr_fexp prec emax _ e' loc_Exact) as [mrs'' e'']. simpl in H2.
  destruct (shr_m mrs'') as [|m|m]; simpl; [reflexivity| |lia].
  destruct (e'' <=? emax - prec); reflexivity.
Qed.

Lemma binary_round_sign sx mx ex : has_sign sx (binary_round prec emax sx mx ex).
Proof.
  unfold binary_round. destruct (shl_align _ _ _) as [mz ez].
  apply binary_round_aux_sign. lia.
Qed.

Lemma has_sign_false_nonneg x : has_sign false x -> SFnonneg x.
Proof. destruct x as [s|s| |s m e]; simpl; try tauto; now intros ->. Qed.

Lemma binary_normalize_nonneg m e :
  0 <= m -> SFnonneg (binary_normalize prec emax m e false).
Proof.
  intros H. destruct m as [|m|m]; simpl; [reflexivity| |lia].
  apply has_sign_false_nonneg, binary_round_sign.
Qed.

(** The sum of two non-negative numbers is non-negative. *)
Lemma SF64add_nonneg x y : SFnonneg x -> SFnonneg y -> SFnonneg (SF64add x y).
Proof.
  unfold SF64add.
  destruct x as [sx|[]| |[] mx ex], y as [sy|[]| |[] my ey];
    try (intros; discriminate); try (intros; assumption);
    try (intros; reflexivity).
  - intros _ _. simpl. now destruct sx, sy.
  - intros _ _. unfold SFadd. apply binary_normalize_nonneg. simpl. lia.
Qed.

(** The subtraction of the code's approved branch: on valid binary64 numbers,
    [b - a] is non-negative when [b] is, [a] is a real number and [a > b]
    does not hold. *)
Lemma digits2_pos_bounds m :
  2 ^ (Z.pos (digits2_pos m) - 1) <= Z.pos m < 2 ^ Z.pos (digits2_pos m).
Proof.
  induction m as [p IH|p IH|]; simpl digits2_pos.
  - rewrite Pos2Z.inj_succ, Z.pow_succ_r by lia.
    replace (Z.succ (Z.pos (digits2_pos p)) - 1) with (Z.succ (Z.pos (digits2_pos p) - 1)) by lia.
    rewrite Z.pow_succ_r by lia. lia.
  - rewrite Pos2Z.inj_succ, Z.pow_succ_r by lia.
    replace (Z.succ (Z.pos (digits2_pos p)) - 1) with (Z.succ (Z.pos (digits2_pos p) - 1)) by lia.
    rewrite Z.pow_succ_r by lia. lia.
  - simpl. lia.
Qed.

Lemma pos_iter_xO_ge m d : (m~0 <= Pos.iter xO m d)%positive.
Proof.
  induction d as [|d IH] using Pos.peano_ind.
  - simpl. lia.
  - rewrite Pos.iter_succ. lia.
Qed.

Lemma shl_align_same m e : shl_align m e e = (m, e).
Proof. unfold shl_align. now rewrite Z.sub_diag. Qed.

Lemma canonical_mantissa_inv m e :
  canonical_mantissa prec emax m e = true ->
  Z.pos (digits2_pos m) <= 53 /\ -1074 <= e /\
  (Z.pos (digits2_pos m) = 53 \/ e = -1074).
Proof.
  unfold canonical_mantissa, fexp, emin, prec, emax. intros H.
  apply Z.eqb_eq in H. lia.
Qed.

Lemma SF64sub_nonneg b a :
  SpecFloat.valid_binary prec emax b = true ->
  SpecFloat.valid_binary prec emax a = true ->
  SFnonneg b -> SFreal a -> SFltb b a = false -> SFnonneg (SF64sub b a).
Proof.
  unfold SF64sub.
  destruct b as [sb|[]| |[] mb eb], a as [sa|sa| |[] ma ea];
    intros Vb Va Hb Ha Hlt; try discriminate Hb; try contradiction Ha;
    try discriminate Hlt; try reflexivity.
  - simpl. now destruct sb, sa.
  - unfold SFsub. apply binary_normalize_nonneg. simpl. lia.
  - unfold SFsub. apply binary_normalize_nonneg.
    simpl in Vb, Va. unfold bounded in Vb, Va.
    apply andb_prop in Vb as [Vb _], Va as [Va _].
    apply canonical_mantissa_inv in Vb, Va.
    unfold SFltb, SFcompare in Hlt.
    destruct (eb ?= ea) eqn:E; try discriminate Hlt.
    + apply Z.compare_eq in E. subst ea.
      rewrite Z.min_id, !shl_align_same. simpl fst. simpl cond_Zopp.
      change (Pos.compare_cont Eq mb ma) with (mb ?= ma)%positive in Hlt.
      destruct (Pos.compare_spec mb ma); try discriminate Hlt; lia.
    + apply Z.compare_gt_iff in E.
      rewrite Z.min_r by lia. rewrite shl_align_same.
      unfold shl_align. destruct (ea - eb) as [|d|d] eqn:D; try lia.
      simpl fst. simpl cond_Zopp.
      pose proof (pos_iter_xO_ge mb d).
      pose proof (digits2_pos_bounds mb) as Bb.
      pose proof (digits2_pos_bounds ma) as Ba.
      assert (Z.pos (digits2_pos mb) = 53) as Eb by lia.
      rewrite Eb in Bb.
      assert (2 ^ Z.pos (digits2_pos ma) <= 2 ^ 53)
        by (apply Z.pow_le_mono_r; lia).
      change (2 ^ (53 - 1)) with 4503599627370496 in Bb.
      change (2 ^ 53) with 9007199254740992 in *. lia.
Qed.

(** Subtracting a negative number is adding its absolute value. *)
Lemma SF64sub_negative b a :
  SFltb a (S754_zero false) = true -> SF64sub b a = SF64add b (SFabs a).
Proof.
  unfold SF64sub, SF64add.
  destruct a as [sa|[]| |[] ma ea]; intros H; try discriminate H;
    destruct b as [sb|[]| |[] mb eb]; try reflexivity.
Qed.

End SpecFloats.

Section PrimFloats.

Local Open Scope float_scope.

Lemma Prim2SF_inj x y : Prim2SF x = Prim2SF y -> x = y.
Proof.
  intros H. rewrite <- (SF2Prim_Prim2SF x), <- (SF2Prim_Prim2SF y). now f_equal.
Qed.

Lemma nonneg_spec x : nonneg x <-> SFnonneg (Prim2SF x).
Proof. unfold nonneg, SFnonneg. now rewrite FloatAxioms.leb_spec. Qed.

Lemma real_spec x : real x -> SFreal (Prim2SF x).
Proof.
  unfold real, is_finite, is_nan, is_infinity.
  rewrite !FloatAxioms.eqb_spec, FloatAxioms.abs_spec.
  change (Prim2SF infinity) with (S754_infinity false).
  destruct (Prim2SF x) as [s|[]| |s m e]; simpl; try discriminate; trivial.
Qed.

Lemma leb_not_ltb a b : (a <=? b) = true -> (b <? a) = false.
Proof. rewrite FloatAxioms.leb_spec, FloatAxioms.ltb_spec. apply SFleb_not_ltb. Qed.

Lemma add_nonneg x y : nonneg x -> nonneg y -> nonneg (x + y).
Proof. rewrite !nonneg_spec, FloatAxioms.add_spec. apply SF64add_nonneg. Qed.

Lemma sub_nonneg b a :
  nonneg b -> real a -> (b <? a) = false -> nonneg (b - a).
Proof.
  rewrite !nonneg_spec, FloatAxioms.sub_spec, FloatAxioms.ltb_spec. intros Hb Ha Hlt.
  apply SF64sub_nonneg; auto using Prim2SF_valid, real_spec.
Qed.

Lemma sub_negative b a : (a <? 0) = true -> b - a = b + abs a.
Proof.
  rewrite FloatAxioms.ltb_spec. intros H. apply Prim2SF_inj.
  rewrite FloatAxioms.sub_spec, FloatAxioms.add_spec, FloatAxioms.abs_spec. now apply SF64sub_negative.
Qed.

End PrimFloats.

(** * Lookups and writes through a found account *)

Section Lookups.

Lemma get_account_Some accts aid i a :
  get_account accts aid = Some (i, a) -> accts !! i = Some a /\ id a = aid.
Proof. unfold get_account. rewrite list_find_Some. tauto. Qed.

Lemma get_account_None accts aid :
  get_account accts aid = None <-> Forall (fun a => id a <> aid) accts.
Proof. unfold get_account. apply list_find_None. Qed.

(** After a write through the reference, the same lookup finds the written
    account at the same place, provided its id was not changed. *)
Lemma get_account_insert accts aid i a a' :
  get_account accts aid = Some (i, a) -> id a' = aid ->
  get_account (<[i := a']> accts) aid = Some (i, a').
Proof.
  unfold get_account. intros H Hid.
  apply list_find_Some in H as (Hi & _ & Hleast).
  apply list_find_insert_Some. right; left.
  split_and!; eauto using lookup_lt_Some.
Qed.

Lemma get_account_by_email_None accts e :
  get_account_by_email accts e = None <->
  Forall (fun a => lower (strip (email a)) <> lower (strip e)) accts.
Proof. unfold get_account_by_email. apply list_find_None. Qed.

End Lookups.

(** * The transaction validator *)

Section Validator.

Implicit Types (w : World) (a : Account) (i : nat) (aid : Z) (amt : float).

(** What every branch that records a transaction does to the collection. *)
Lemma recorded w aid i a a' :
  get_account (accounts w) aid = Some (i, a) -> id a' = id a ->
  accounts (save_data (store w i a')) = <[i := a']> (accounts w) /\
  get_account (accounts (save_data (store w i a'))) aid = Some (i, a').
Proof.
  intros H Hid. split; [reflexivity|]. simpl.
  apply (get_account_insert _ _ _ a); [exact H|].
  apply get_account_Some in H. now rewrite Hid.
Qed.

(** C1, as the code has it: for an account id that is not in the collection,
    [validate_transaction] returns ["denied"], the very value of the Denied
    outcome, records no transaction and leaves the collection and the data
    file as they were. *)
Theorem validate_transaction_absent w aid amt etype now :
  get_account (accounts w) aid = None ->
  validate_transaction w aid amt etype now = ("denied", w).
Proof. intros H. unfold validate_transaction. now rewrite H. Qed.

Lemma validate_transaction_absent_witness :
  validate_transaction (initial FileAbsent) 1 5%float "doctor" "2024-01-01 00:00 UTC"
  = ("denied", initial FileAbsent).
Proof. apply validate_transaction_absent. reflexivity. Defined.

(** C1, as stated, fails: on the empty collection account 1 is absent and
    the result is ["denied"], which is also what a refused category yields on
    an account that exists; there is no distinct not-found value. *)
Lemma validate_transaction_absent_not_distinct :
  get_account (accounts (initial FileAbsent)) 1 = None /\
  fst (validate_transaction (initial FileAbsent) 1 5%float "doctor"
         "2024-01-01 00:00 UTC") = "denied" /\
  fst (validate_transaction alice_world 1 5%float "haircut"
         "2024-01-01 00:00 UTC") = "denied".
Proof. repeat split. Qed.

(** C3: for an account of the collection, a category whose trimmed and
    lower-cased form is in the allow-list, and [0 <= amount <= balance],
    [validate_transaction] returns ["approved"], appends exactly one record,
    of status approved, to the history of that account and takes [amount]
    off its balance (by the binary64 subtraction of the code); nothing else
    in the collection changes. *)
Theorem validate_transaction_approved w aid amt etype now i a :
  get_account (accounts w) aid = Some (i, a) ->
  lower (strip etype) ∈ ALLOWED_EXPENSES ->
  (0 <=? amt)%float = true ->
  (amt <=? balance a)%float = true ->
  exists a' w',
    validate_transaction w aid amt etype now = ("approved", w') /\
    accounts w' = <[i := a']> (accounts w) /\
    get_account (accounts w') aid = Some (i, a') /\
    transactions a' =
      (transactions a ++
        [{| type := etype; amount := amt; status := Some "approved"; date := now |}])%list /\
    balance a' = (balance a - amt)%float /\
    same_holder a a'.
Proof.
  intros H Hin _ Hle. unfold validate_transaction. rewrite H.
  rewrite bool_decide_eq_true_2 by exact Hin. simpl negb. cbv iota.
  rewrite (leb_not_ltb _ _ Hle).
  eexists _, _. split; [reflexivity|].
  destruct (recorded w aid i a
    (set_balance (balance a - amt)
       (append_transaction (set_status "approved"
          {| type := etype; amount := amt; status := None; date := now |}) a)) H eq_refl)
    as [E1 E2].
  split_and!; [exact E1|exact E2|reflexivity|reflexivity|].
  repeat split.
Qed.

Lemma validate_transaction_approved_witness :
  exists a' w',
    validate_transaction alice_world 1 40%float " Doctor " "2024-01-01 00:00 UTC"
      = ("approved", w') /\
    accounts w' = <[0%nat := a']> (accounts alice_world) /\
    get_account (accounts w') 1 = Some (0%nat, a') /\
    transactions a' =
      (transactions alice ++
        [{| type := " Doctor "; amount := 40%float; status := Some "approved";
            date := "2024-01-01 00:00 UTC" |}])%list /\
    balance a' = (balance alice - 40)%float /\
    same_holder alice a'.
Proof.
  apply (validate_transaction_approved alice_world 1 40%float " Doctor "
           "2024-01-01 00:00 UTC" 0%nat alice).
  - reflexivity.
  - apply (bool_decide_unpack _). vm_compute. exact I.
  - reflexivity.
  - reflexivity.
Defined.

(** C4: for an account of the collection and a category, in ASCII text,
    whose trimmed and lower-cased form is not in the allow-list,
    [validate_transaction] returns ["denied"] whatever the amount, appends
    exactly one record, of status denied and with the category as it was
    submitted, and leaves the balance as it was. *)
Theorem validate_transaction_category_denied w aid amt etype now i a :
  get_account (accounts w) aid = Some (i, a) ->
  ascii_text etype = true ->
  lower (strip etype) ∉ ALLOWED_EXPENSES ->
  exists a' w',
    validate_transaction w aid amt etype now = ("denied", w') /\
    accounts w' = <[i := a']> (accounts w) /\
    get_account (accounts w') aid = Some (i, a') /\
    transactions a' =
      (transactions a ++
        [{| type := etype; amount := amt; status := Some "denied"; date := now |}])%list /\
    balance a' = balance a /\
    same_holder a a'.
Proof.
  intros H _ Hin. unfold validate_transaction. rewrite H.
  rewrite bool_decide_eq_false_2 by exact Hin. simpl negb. cbv iota.
  eexists _, _. split; [reflexivity|].
  destruct (recorded w aid i a
    (append_transaction (set_status "denied"
       {| type := etype; amount := amt; status := None; date := now |}) a) H eq_refl)
    as [E1 E2].
  split_and!; [exact E1|exact E2|reflexivity|reflexivity|].
  repeat split.
Qed.

Lemma validate_transaction_category_denied_witness :
  exists a' w',
    validate_transaction alice_world 1 0%float "Haircut" "2024-01-01 00:00 UTC"
      = ("denied", w') /\
    accounts w' = <[0%nat := a']> (accounts alice_world) /\
    get_account (accounts w') 1 = Some (0%nat, a') /\
    transactions a' =
      (transactions alice ++
        [{| type := "Haircut"; amount := 0%float; status := Some "denied";
            date := "2024-01-01 00:00 UTC" |}])%list /\
    balance a' = balance alice /\
    same_holder alice a'.
Proof.
  apply (validate_transaction_category_denied alice_world 1 0%float "Haircut"
           "2024-01-01 00:00 UTC" 0%nat alice).
  - reflexivity.
  - reflexivity.
  - apply (bool_decide_eq_false_1 _). vm_compute. reflexivity.
Defined.

(** C10: for an account of the collection, a category of the allow-list and a
    negative amount that is at most the balance, [validate_transaction]
    returns ["approved"], appends a record of status approved and raises the
    balance by the absolute value of the amount: the sign of the amount is
    never tested. *)
Theorem validate_transaction_negative_amount w aid amt etype now i a :
  get_account (accounts w) aid = Some (i, a) ->
  lower (strip etype) ∈ ALLOWED_EXPENSES ->
  (amt <? 0)%float = true ->
  (amt <=? balance a)%float = true ->
  exists a' w',
    validate_transaction w aid amt etype now = ("approved", w') /\
    accounts w' = <[i := a']> (accounts w) /\
    get_account (accounts w') aid = Some (i, a') /\
    transactions a' =
      (transactions a ++
        [{| type := etype; amount := amt; status := Some "approved"; date := now |}])%list /\
    balance a' = (balance a + abs amt)%float /\
    same_holder a a'.
Proof.
  intros H Hin Hneg Hle. unfold validate_transaction. rewrite H.
  rewrite bool_decide_eq_true_2 by exact Hin. simpl negb. cbv iota.
  rewrite (leb_not_ltb _ _ Hle).
  eexists _, _. split; [reflexivity|].
  destruct (recorded w aid i a
    (set_balance (balance a - amt)
       (append_transaction (set_status "approved"
          {| type := etype; amount := amt; status := None; date := now |}) a)) H eq_refl)
    as [E1 E2].
  split_and!; [exact E1|exact E2|reflexivity| |].
  - simpl. now apply sub_negative.
  - repeat split.
Qed.

Lemma validate_transaction_negative_amount_witness :
  exists a' w',
    validate_transaction alice_world 1 (-40)%float "lab" "2024-01-01 00:00 UTC"
      = ("approved", w') /\
    accounts w' = <[0%nat := a']> (accounts alice_world) /\
    get_account (accounts w') 1 = Some (0%nat, a') /\
    transactions a' =
      (transactions alice ++
        [{| type := "lab"; amount := (-40)%float; status := Some "approved";
            date := "2024-01-01 00:00 UTC" |}])%list /\
    balance a' = (balance alice + abs (-40))%float /\
    same_holder alice a'.
Proof.
  apply (validate_transaction_negative_amount alice_world 1 (-40)%float "lab"
           "2024-01-01 00:00 UTC" 0%nat alice).
  - reflexivity.
  - apply (bool_decide_unpack _). vm_compute. exact I.
  - reflexivity.
  - reflexivity.
Defined.

End Validator.

(** * The account directory *)

Section Directory.

Implicit Types (w : World) (a : Account).

(** C5: on ASCII text (the name, the email and the emails on record), when
    the normalised email matches no account of the collection,
    [create_an_account] succeeds: the account it returns has for id the
    number of accounts before the call plus one, a zero balance, no card and
    an empty history, and it is appended, alone, to the collection. *)
Theorem create_an_account_fresh w name0 email0 :
  ascii_text name0 = true ->
  ascii_text email0 = true ->
  Forall (fun a => ascii_text (email a) = true) (accounts w) ->
  Forall (fun a => lower (strip (email a)) <> lower (strip email0)) (accounts w) ->
  exists acct w',
    create_an_account w name0 email0 = (Some acct, w') /\
    id acct = Z.of_nat (length (accounts w)) + 1 /\
    balance acct = 0%float /\
    card_number acct = None /\
    transactions acct = [] /\
    name acct = strip name0 /\
    email acct = lower (strip email0) /\
    accounts w' = (accounts w ++ [acct])%list.
Proof.
  intros _ _ _ Hfresh. unfold create_an_account.
  assert (get_account_by_email (accounts w) (lower (strip email0)) = None) as ->.
  { apply get_account_by_email_None. now rewrite normalize_idem. }
  eexists _, _. split_and!; reflexivity.
Qed.

Lemma create_an_account_fresh_witness :
  exists acct w',
    create_an_account alice_world "Bob" " Bob@X.com " = (Some acct, w') /\
    id acct = Z.of_nat (length (accounts alice_world)) + 1 /\
    balance acct = 0%float /\
    card_number acct = None /\
    transactions acct = [] /\
    name acct = strip "Bob" /\
    email acct = lower (strip " Bob@X.com ") /\
    accounts w' = (accounts alice_world ++ [acct])%list.
Proof.
  apply (create_an_account_fresh alice_world "Bob" " Bob@X.com ").
  - reflexivity.
  - reflexivity.
  - repeat constructor.
  - repeat constructor. vm_compute. discriminate.
Defined.

(** C6: of two calls of [create_an_account] with emails that agree once
    trimmed and lower-cased, the second fails: it returns [None], creates no
    account and leaves the collection (hence its size) and the data file as
    the first call left them. The first call succeeds exactly when the email
    was not registered before it. *)
Theorem create_an_account_duplicate w name1 email1 name2 email2 :
  lower (strip email1) = lower (strip email2) ->
  exists r1 w1,
    create_an_account w name1 email1 = (r1, w1) /\
    create_an_account w1 name2 email2 = (None, w1) /\
    (is_Some r1 <-> get_account_by_email (accounts w) email1 = None).
Proof.
  intros Heq. unfold create_an_account at 1.
  assert (forall accts, get_account_by_email accts (lower (strip email1))
                        = get_account_by_email accts email1) as Hnorm.
  { intros accts. unfold get_account_by_email. now rewrite normalize_idem. }
  rewrite Hnorm.
  destruct (get_account_by_email (accounts w) email1) as [[j b]|] eqn:Hfind.
  - eexists _, _. split; [reflexivity|]. split.
    + unfold create_an_account. rewrite <- Heq, Hnorm, Hfind. reflexivity.
    + split; [intros [x Hx]; discriminate Hx|discriminate].
  - eexists _, _. split; [reflexivity|]. split; [|split; eauto].
    unfold create_an_account. rewrite <- Heq, Hnorm.
    set (acct := {| name := strip name1; email := lower (strip email1);
                    id := Z.of_nat (length (accounts w)) + 1; balance := 0%float;
                    card_number := None; transactions := [] |}).
    destruct (list_find_elem_of
                (fun a => lower (strip (email a)) = lower (strip email1))
                (accounts w ++ [acct]) acct) as [[k c] Hk].
    + apply elem_of_app. right. apply list_elem_of_singleton. reflexivity.
    + simpl. apply normalize_idem.
    + unfold get_account_by_email. simpl accounts. now rewrite Hk.
Qed.

Lemma create_an_account_duplicate_witness :
  exists r1 w1,
    create_an_account (initial FileAbsent) "Alice" "alice@x.com" = (r1, w1) /\
    create_an_account w1 "Alice B." "  ALICE@X.COM " = (None, w1) /\
    (is_Some r1 <->
     get_account_by_email (accounts (initial FileAbsent)) "alice@x.com" = None).
Proof.
  apply (create_an_account_duplicate (initial FileAbsent)
           "Alice" "alice@x.com" "Alice B." "  ALICE@X.COM ").
  reflexivity.
Defined.

End Directory.

(** * The ledger operations *)

Section Ledger.

Implicit Types (w : World) (a : Account) (i : nat) (aid : Z) (amt : float).

(** C8: for an account of the collection, [deposit_funds] adds the amount to
    its balance (by the binary64 addition of the code) and changes nothing
    else, and this for every amount, non-negative ones included; for an id
    that is not in the collection it returns [None] and leaves the collection
    and the data file as they were. *)
Theorem deposit_funds_spec w aid amt :
  (forall i a,
     get_account (accounts w) aid = Some (i, a) ->
     exists a' w',
       deposit_funds w aid amt = (Some a', w') /\
       accounts w' = <[i := a']> (accounts w) /\
       get_account (accounts w') aid = Some (i, a') /\
       balance a' = (balance a + amt)%float /\
       transactions a' = transactions a /\
       same_holder a a') /\
  (get_account (accounts w) aid = None -> deposit_funds w aid amt = (None, w)).
Proof.
  split.
  - intros i a H. unfold deposit_funds. rewrite H.
    eexists _, _. split; [reflexivity|].
    destruct (recorded w aid i a (set_balance (balance a + amt) a) H eq_refl)
      as [E1 E2].
    split_and!; [exact E1|exact E2|reflexivity|reflexivity|].
    repeat split.
  - intros H. unfold deposit_funds. now rewrite H.
Qed.

Lemma deposit_funds_spec_witness :
  (exists a' w',
     deposit_funds alice_world 1 25%float = (Some a', w') /\
     accounts w' = <[0%nat := a']> (accounts alice_world) /\
     get_account (accounts w') 1 = Some (0%nat, a') /\
     balance a' = (balance alice + 25)%float /\
     transactions a' = transactions alice /\
     same_holder alice a') /\
  deposit_funds alice_world 2 25%float = (None, alice_world).
Proof.
  split.
  - apply (proj1 (deposit_funds_spec alice_world 1 25%float) 0%nat alice).
    reflexivity.
  - apply (proj2 (deposit_funds_spec alice_world 2 25%float)).
    reflexivity.
Defined.

Lemma length_zeros k : String.length (zeros k) = k.
Proof. induction k; simpl; congruence. Qed.

Lemma length_append (s t : string) :
  String.length (s ++ t) = (String.length s + String.length t)%nat.
Proof. induction s; simpl; [reflexivity|congruence]. Qed.

(** [digits n] is the decimal numeral of [n]: read back, it gives [n]. *)
Lemma digits_value n :
  0 <= n ->
  option_map (fun u => Z.of_N (N.of_uint u)) (NilZero.uint_of_string (digits n))
  = Some n.
Proof.
  intros Hn. unfold digits. rewrite Z.abs_eq by exact Hn.
  rewrite NilZero.usu.
  - simpl. rewrite DecimalN.Unsigned.of_to. f_equal. lia.
  - intros E. pose proof (DecimalN.Unsigned.of_to (Z.to_N n)) as H.
    rewrite E in H. simpl in H. rewrite <- H in E. discriminate E.
Qed.

(** [format(n, "04d")] of a non-negative [n] is its decimal digits behind as
    many zeros as it takes to reach four characters. *)
Lemma format_04d_nonneg n :
  0 <= n ->
  format_04d n = zeros (4 - String.length (digits n)) ++ digits n /\
  (4 <= String.length (format_04d n))%nat.
Proof.
  intros Hn. unfold format_04d.
  destruct (n <? 0) eqn:E; [apply Z.ltb_lt in E; lia|].
  split; [reflexivity|]. rewrite length_append, length_zeros. lia.
Qed.

Lemma uint_of_string_zeros k s :
  option_map N.of_uint (NilEmpty.uint_of_string (zeros k ++ s))
  = option_map N.of_uint (NilEmpty.uint_of_string s).
Proof.
  induction k as [|k IH]; [reflexivity|].
  change (zeros (S k) ++ s) with (String "0" (zeros k ++ s)).
  change (NilEmpty.uint_of_string (String "0" (zeros k ++ s)))
    with (uint_of_char "0" (NilEmpty.uint_of_string (zeros k ++ s))).
  rewrite <- IH. now destruct (NilEmpty.uint_of_string (zeros k ++ s)).
Qed.

(** Read as a numeral, [format(n, "04d")] of a non-negative [n] is [n]. *)
Lemma format_04d_value n :
  0 <= n ->
  option_map N.of_uint (NilEmpty.uint_of_string (format_04d n)) = Some (Z.to_N n).
Proof.
  intros Hn. destruct (format_04d_nonneg n Hn) as [-> _].
  rewrite uint_of_string_zeros.
  pose proof (digits_value n Hn) as Hd.
  destruct (digits n) as [|c s] eqn:E; [discriminate Hd|].
  change (NilZero.uint_of_string (String c s))
    with (NilEmpty.uint_of_string (String c s)) in Hd.
  destruct (NilEmpty.uint_of_string (String c s)) as [u|]; [|discriminate Hd].
  simpl in *. inversion Hd as [Hu]. rewrite Hu. f_equal. lia.
Qed.

Lemma zeros_all_zero k :
  Forall (fun c => c = "0"%char) (list_ascii_of_string (zeros k)).
Proof. induction k; simpl; constructor; auto. Qed.

(** [format(n, "04d")] of a non-negative [n], in terms of the decimal
    printing of the standard library: the numeral of [n] behind a pad of
    ["0"] characters that brings the width to four. *)
Lemma format_04d_decimal n :
  0 <= n ->
  exists pad,
    format_04d n = pad ++ NilZero.string_of_uint (N.to_uint (Z.to_N n)) /\
    String.length pad
      = (4 - String.length (NilZero.string_of_uint (N.to_uint (Z.to_N n))))%nat /\
    Forall (fun c => c = "0"%char) (list_ascii_of_string pad).
Proof.
  intros Hn. destruct (format_04d_nonneg n Hn) as [E _].
  assert (digits n = NilZero.string_of_uint (N.to_uint (Z.to_N n))) as D.
  { unfold digits. now rewrite Z.abs_eq. }
  rewrite D in E. eexists. split; [exact E|].
  split; [apply length_zeros|apply zeros_all_zero].
Qed.

(** C7: [issue_card] is idempotent. On an account of the collection, two
    calls in a row return the same account, hence the same card number, and
    the second one changes nothing; the first one changes the state only when
    the account has no card yet, and the number it then assigns is
    [4000-0000-0000-] followed by the id zero-padded to four digits: for an
    id that is not negative, the decimal numeral of the id behind as many
    ["0"] as it takes to reach four characters, which read as a number give
    the id back. *)
Theorem issue_card_idempotent w aid i a :
  get_account (accounts w) aid = Some (i, a) ->
  exists a1 w1,
    issue_card w aid = (Some a1, w1) /\
    issue_card w1 aid = (Some a1, w1) /\
    truthy (card_number a1) = true /\
    (truthy (card_number a) = true -> a1 = a /\ w1 = w) /\
    (truthy (card_number a) = false ->
       card_number a1 = Some ("4000-0000-0000-" ++ format_04d (id a)) /\
       accounts w1 = <[i := a1]> (accounts w) /\
       balance a1 = balance a /\ transactions a1 = transactions a /\
       name a1 = name a /\ email a1 = email a /\ id a1 = id a) /\
    (0 <= id a ->
       format_04d (id a)
         = zeros (4 - String.length (digits (id a))) ++ digits (id a) /\
       (4 <= String.length (format_04d (id a)))%nat /\
       (exists pad,
          format_04d (id a)
            = pad ++ NilZero.string_of_uint (N.to_uint (Z.to_N (id a))) /\
          String.length pad
            = (4 - String.length
                     (NilZero.string_of_uint (N.to_uint (Z.to_N (id a)))))%nat /\
          Forall (fun c => c = "0"%char) (list_ascii_of_string pad)) /\
       option_map N.of_uint (NilEmpty.uint_of_string (format_04d (id a)))
         = Some (Z.to_N (id a))).
Proof.
  intros H. pose proof (get_account_Some _ _ _ _ H) as [_ Hid].
  assert (0 <= id a ->
          format_04d (id a)
            = zeros (4 - String.length (digits (id a))) ++ digits (id a) /\
          (4 <= String.length (format_04d (id a)))%nat /\
          (exists pad,
             format_04d (id a)
               = pad ++ NilZero.string_of_uint (N.to_uint (Z.to_N (id a))) /\
             String.length pad
               = (4 - String.length
                        (NilZero.string_of_uint (N.to_uint (Z.to_N (id a)))))%nat /\
             Forall (fun c => c = "0"%char) (list_ascii_of_string pad)) /\
          option_map N.of_uint (NilEmpty.uint_of_string (format_04d (id a)))
            = Some (Z.to_N (id a))) as Hfmt.
  { intros Hn. destruct (format_04d_nonneg _ Hn) as [F1 F2].
    split_and!; auto using format_04d_decimal, format_04d_value. }
  unfold issue_card at 1. rewrite H.
  destruct (truthy (card_number a)) eqn:T.
  - exists a, w. split; [reflexivity|]. split.
    + unfold issue_card. now rewrite H, T.
    + split_and!; auto; discriminate.
  - eexists _, _. split; [reflexivity|].
    destruct (recorded w aid i a
      (set_card_number (Some ("4000-0000-0000-" ++ format_04d aid)) a) H eq_refl)
      as [E1 E2].
    split.
    + unfold issue_card at 1. now rewrite E2.
    + split_and!; auto; [discriminate|].
      intros _. rewrite Hid. split_and!; auto.
Qed.

Lemma issue_card_idempotent_witness :
  exists a1 w1,
    issue_card alice_world 1 = (Some a1, w1) /\
    issue_card w1 1 = (Some a1, w1) /\
    truthy (card_number a1) = true /\
    (truthy (card_number alice) = true -> a1 = alice /\ w1 = alice_world) /\
    (truthy (card_number alice) = false ->
       card_number a1 = Some ("4000-0000-0000-" ++ format_04d (id alice)) /\
       accounts w1 = <[0%nat := a1]> (accounts alice_world) /\
       balance a1 = balance alice /\ transactions a1 = transactions alice /\
       name a1 = name alice /\ email a1 = email alice /\ id a1 = id alice) /\
    (0 <= id alice ->
       format_04d (id alice)
         = zeros (4 - String.length (digits (id alice))) ++ digits (id alice) /\
       (4 <= String.length (format_04d (id alice)))%nat /\
       (exists pad,
          format_04d (id alice)
            = pad ++ NilZero.string_of_uint (N.to_uint (Z.to_N (id alice))) /\
          String.length pad
            = (4 - String.length
                     (NilZero.string_of_uint (N.to_uint (Z.to_N (id alice)))))%nat /\
          Forall (fun c => c = "0"%char) (list_ascii_of_string pad)) /\
       option_map N.of_uint (NilEmpty.uint_of_string (format_04d (id alice)))
         = Some (Z.to_N (id alice))).
Proof.
  apply (issue_card_idempotent alice_world 1 0%nat alice). reflexivity.
Defined.

Example format_04d_7 : format_04d 7 = "0007".
Proof. reflexivity. Qed.

Example issue_card_alice :
  card_number <$> fst (issue_card alice_world 1) = Some (Some "4000-0000-0000-0001").
Proof. reflexivity. Qed.

End Ledger.

(** * The store *)

Section Store.

(** C9: [load_data] never raises. Whatever the condition of the file, it
    returns a collection: the empty one when the file is absent, unreadable,
    not parseable or holds a JSON value that is not a list, and the parsed
    list itself when the file holds a list, which is the only case where the
    contents of the file are returned. *)
Theorem load_data_total fs :
  (exists l, load_data fs = Return l) /\
  (fs = FileAbsent \/ fs = FileUnreadable \/ fs = FileCorrupt \/
   (exists v, fs = FileJson v /\ forall l, v <> JList l) ->
   load_data fs = Return []) /\
  (forall l, fs = FileJson (JList l) -> load_data fs = Return l) /\
  (forall l, load_data fs = Return l -> l <> [] -> fs = FileJson (JList l)).
Proof.
  split_and!.
  - destruct fs as [| | |[]]; eexists; reflexivity.
  - intros [->|[->|[->|(v & -> & Hv)]]]; try reflexivity.
    destruct v; try reflexivity. now destruct (Hv l).
  - intros l ->. reflexivity.
  - intros l H Hl. destruct fs as [| | |[]]; simpl in H;
      inversion H; subst; congruence.
Qed.

Lemma load_data_total_witness :
  load_data FileCorrupt = Return [] /\
  load_data (FileJson (JDict [("id", JInt 1)])) = Return [] /\
  load_data (FileJson (JList [JInt 1])) = Return [JInt 1].
Proof.
  split_and!.
  - apply (proj1 (proj2 (load_data_total FileCorrupt))). auto.
  - apply (proj1 (proj2 (load_data_total (FileJson (JDict [("id", JInt 1)]))))).
    right; right; right. eexists. split; [reflexivity|discriminate].
  - apply (proj1 (proj2 (proj2 (load_data_total (FileJson (JList [JInt 1])))))).
    reflexivity.
Defined.

(** What [save_data] wrote is what [load_data] reads back. *)
Lemma load_data_save_data w :
  load_data (data_file (save_data w)) = Return (map account_to_json (accounts w)).
Proof. reflexivity. Qed.

End Store.

(** * Balances along a run *)

Section Invariant.

Implicit Types (w : World) (c : call).

Lemma nonneg_zero : nonneg 0%float.
Proof. reflexivity. Qed.

Lemma balances_nonneg_store w i a :
  balances_nonneg w -> nonneg (balance a) ->
  balances_nonneg (save_data (store w i a)).
Proof.
  unfold balances_nonneg. simpl. intros Hw Ha. now apply Forall_insert.
Qed.

Lemma balances_nonneg_found w aid i a :
  balances_nonneg w -> get_account (accounts w) aid = Some (i, a) ->
  nonneg (balance a).
Proof.
  intros Hw H. apply get_account_Some in H as [H _].
  exact (Forall_lookup_1 _ _ _ _ Hw H).
Qed.

Lemma perform_balances_nonneg w c :
  balances_nonneg w -> admissible c -> balances_nonneg (perform w c).
Proof.
  intros Hw Hc. destruct c as [n e|aid x|aid|aid x t now]; simpl.
  - unfold create_an_account.
    destruct (get_account_by_email _ _); simpl; [exact Hw|].
    apply Forall_app. split; [exact Hw|].
    repeat constructor.
  - unfold deposit_funds.
    destruct (get_account _ _) as [[i a]|] eqn:H; simpl snd; [|exact Hw].
    apply balances_nonneg_store; [exact Hw|]. simpl.
    apply add_nonneg; [eapply balances_nonneg_found; eauto|exact Hc].
  - unfold issue_card.
    destruct (get_account _ _) as [[i a]|] eqn:H; simpl snd; [|exact Hw].
    destruct (truthy _); simpl snd; [exact Hw|].
    apply balances_nonneg_store; [exact Hw|]. simpl.
    eapply balances_nonneg_found; eauto.
  - unfold validate_transaction.
    destruct (get_account _ _) as [[i a]|] eqn:H; simpl snd; [|exact Hw].
    pose proof (balances_nonneg_found _ _ _ _ Hw H) as Ha.
    destruct (negb _); simpl snd.
    { apply balances_nonneg_store; [exact Hw|exact Ha]. }
    destruct (balance a <? x)%float eqn:Hlt; simpl snd.
    { apply balances_nonneg_store; [exact Hw|exact Ha]. }
    apply balances_nonneg_store; [exact Hw|]. simpl.
    apply sub_nonneg; assumption.
Qed.

Lemma run_balances_nonneg cs : forall w,
  balances_nonneg w -> Forall admissible cs -> balances_nonneg (run w cs).
Proof.
  induction cs as [|c cs IH]; intros w Hw Hcs; simpl; [exact Hw|].
  inversion Hcs; subst. apply IH; [|assumption].
  now apply perform_balances_nonneg.
Qed.

(** C2, as the code has it: in every state reached from the empty collection
    by calls of [create_an_account], [deposit_funds], [issue_card] and
    [validate_transaction] whose deposit amounts are non-negative and whose
    transaction amounts are real numbers, every balance is non-negative. *)
Theorem balances_nonneg_reachable fs cs :
  Forall admissible cs -> balances_nonneg (run (initial fs) cs).
Proof.
  intros Hcs.
  apply (run_balances_nonneg cs (initial fs)); [constructor|exact Hcs].
Qed.

Lemma balances_nonneg_reachable_witness :
  balances_nonneg
    (run (initial FileAbsent)
       [CreateAccount "Alice" "alice@x.com";
        DepositFunds 1 100%float;
        ValidateTransaction 1 40%float "doctor" "2024-01-01 00:00 UTC";
        IssueCard 1;
        ValidateTransaction 1 (-3)%float "lab" "2024-01-02 00:00 UTC"]).
Proof.
  apply (balances_nonneg_reachable FileAbsent).
  repeat constructor.
Defined.

(** C2, as stated, fails: a deposit of a negative amount is accepted and
    leaves a negative balance. *)
Lemma negative_deposit_negative_balance :
  exists a,
    a ∈ accounts (run (initial FileAbsent)
                    [CreateAccount "Alice" "alice@x.com";
                     DepositFunds 1 (-5)%float]) /\
    balance a = (-5)%float /\
    (0 <=? balance a)%float = false.
Proof.
  eexists. split; [apply list_elem_of_singleton; reflexivity|].
  split; reflexivity.
Qed.

End Invariant.

(** * The scenario of the specification, run on the model *)

Section Scenario.

Example scenario :
  let t := "2024-01-01 00:00 UTC" in
  let w1 := alice_world in
  let '(r2, w2) := validate_transaction w1 1 40%float "doctor" t in
  let '(r3, w3) := validate_transaction w2 1 1000%float "dental" t in
  let '(r4, w4) := validate_transaction w3 1 10%float "haircut" t in
  let '(r5, w5) := issue_card w4 1 in
  (r2, r3, r4) = ("approved", "denied", "denied") /\
  balance <$> accounts w4 = [60%float] /\
  (length ∘ transactions) <$> accounts w4 = [3%nat] /\
  card_number <$> r5 = Some (Some "4000-0000-0000-0001").
Proof. repeat split. Qed.

End Scenario.

(** * What a call does to the collection, in one lemma *)

Section Steps.

Implicit Types (w : World) (c : call) (a : Account).

Lemma account_step_refl a : account_step a a.
Proof. unfold account_step. split_and!; auto. Qed.

Lemma perform_step w c : world_step w (perform w c).
Proof.
  destruct c as [n e|aid x|aid|aid x t now]; simpl.
  - unfold create_an_account.
    destruct (get_account_by_email (accounts w) (lower (strip e)))
      as [[j b]|] eqn:H; simpl; [now apply step_none|].
    apply get_account_by_email_None in H. rewrite normalize_idem in H.
    eapply step_create; simpl; try reflexivity; [exact H|apply normalize_idem].
  - unfold deposit_funds.
    destruct (get_account (accounts w) aid) as [[i a]|] eqn:H; simpl;
      [|now apply step_none].
    apply get_account_Some in H as [H _].
    eapply step_update; [exact H| |reflexivity|reflexivity].
    unfold account_step; simpl. split_and!; auto.
  - unfold issue_card.
    destruct (get_account (accounts w) aid) as [[i a]|] eqn:H; simpl;
      [|now apply step_none].
    destruct (truthy (card_number a)) eqn:T; simpl; [now apply step_none|].
    apply get_account_Some in H as [H Hid].
    eapply step_update; [exact H| |reflexivity|reflexivity].
    unfold account_step; simpl. rewrite Hid. split_and!; auto.
  - unfold validate_transaction.
    destruct (get_account (accounts w) aid) as [[i a]|] eqn:H; simpl;
      [|now apply step_none].
    apply get_account_Some in H as [H _].
    destruct (negb _); [|destruct (balance a <? x)%float]; simpl;
      (eapply step_update; [exact H| |reflexivity|reflexivity]);
      unfold account_step; simpl; split_and!; auto;
      right; eexists; (split; [|reflexivity]); unfold decided; simpl; auto.
Qed.

(** An invariant of every call is an invariant of every run. *)
Lemma run_invariant (P : World -> Prop) :
  (forall w c, P w -> P (perform w c)) ->
  forall cs w, P w -> P (run w cs).
Proof.
  intros Hstep cs. induction cs as [|c cs IH]; intros w Hw; simpl; auto.
Qed.

Lemma step_invariant (P : World -> Prop) :
  (forall w w', world_step w w' -> P w -> P w') ->
  forall cs w, P w -> P (run w cs).
Proof.
  intros Hstep. apply run_invariant. intros w c. apply Hstep, perform_step.
Qed.

End Steps.

(** * Invariants of the collection *)

Section Invariants.

Implicit Types (w : World) (a : Account) (cs : list call).

Lemma ids_sequential_step w w' :
  world_step w w' -> ids_sequential w -> ids_sequential w'.
Proof.
  intros [->|acct Hacc _ _ Hid _ _ _|i a a' Hi Hstep Hacc _] Hw k b Hk.
  - now apply Hw.
  - rewrite Hacc in Hk. apply lookup_app_Some in Hk as [Hk|[Hlen Hk]]; auto.
    apply list_lookup_singleton_Some in Hk as [Hk <-].
    rewrite Hid. lia.
  - rewrite Hacc in Hk.
    apply list_lookup_insert_Some in Hk as [(<- & <- & _)|[_ Hk]]; auto.
    destruct Hstep as (_ & _ & -> & _). auto.
Qed.

Lemma ids_sequential_run fs cs : ids_sequential (run (initial fs) cs).
Proof.
  apply (step_invariant ids_sequential ids_sequential_step).
  intros k a Hk. discriminate Hk.
Qed.

(** With sequential ids, the lookup by id is the lookup by position. *)
Lemma get_account_sequential w aid i a :
  ids_sequential w ->
  get_account (accounts w) aid = Some (i, a) <->
  accounts w !! i = Some a /\ aid = Z.of_nat i + 1.
Proof.
  intros Hw. unfold get_account. rewrite list_find_Some. split.
  - intros (Hi & Hid & _). split; [exact Hi|]. rewrite <- Hid. now apply Hw.
  - intros (Hi & ->). split_and!; auto.
    intros j b Hj Hlt Hb. apply Hw in Hj. lia.
Qed.

Lemma emails_unique_step w w' :
  world_step w w' -> emails_unique w -> emails_unique w'.
Proof.
  intros [->|acct Hacc Hfresh Hnorm _ _ _ _|i a a' Hi Hstep Hacc _] [Hn Hd].
  - now split.
  - unfold emails_unique. rewrite Hacc. split.
    + apply Forall_app. split; [exact Hn|]. now repeat constructor.
    + rewrite fmap_app. apply NoDup_app. split_and!; [exact Hd| |apply NoDup_singleton].
      intros e He Hin. apply list_elem_of_singleton in Hin. subst e.
      apply list_elem_of_fmap in He as (b & Hb & Hin).
      pose proof (proj1 (Forall_forall _ _) Hn b Hin) as Hb1.
      pose proof (proj1 (Forall_forall _ _) Hfresh b Hin) as Hb2.
      simpl in Hb1, Hb2. congruence.
  - destruct Hstep as (_ & He & _). unfold emails_unique. rewrite Hacc. split.
    + apply Forall_insert; [exact Hn|]. rewrite He.
      exact (Forall_lookup_1 _ _ _ _ Hn Hi).
    + rewrite list_fmap_insert, He, list_insert_id; [exact Hd|].
      now rewrite list_lookup_fmap, Hi.
Qed.

Lemma histories_decided_step w w' :
  world_step w w' -> histories_decided w -> histories_decided w'.
Proof.
  unfold histories_decided.
  intros [->|acct Hacc _ _ _ _ Ht _|i a a' Hi Hstep Hacc _] Hw; auto.
  - rewrite Hacc. apply Forall_app. split; [exact Hw|].
    repeat constructor. rewrite Ht. constructor.
  - rewrite Hacc. apply Forall_insert; [exact Hw|].
    pose proof (Forall_lookup_1 _ _ _ _ Hw Hi) as Ha. simpl in Ha.
    destruct Hstep as (_ & _ & _ & _ & [->|(t & Ht & ->)]); [exact Ha|].
    apply Forall_app. split; [exact Ha|]. constructor; [exact Ht|constructor].
Qed.

Lemma cards_ok_step w w' : world_step w w' -> cards_ok w -> cards_ok w'.
Proof.
  unfold cards_ok.
  intros [->|acct Hacc _ _ _ Hc _ _|i a a' Hi Hstep Hacc _] Hw; auto.
  - rewrite Hacc. apply Forall_app. split; [exact Hw|].
    constructor; [left; exact Hc|constructor].
  - rewrite Hacc. apply Forall_insert; [exact Hw|].
    pose proof (Forall_lookup_1 _ _ _ _ Hw Hi) as Ha.
    destruct Hstep as (_ & _ & Hid & [Hc|[_ Hc]] & _); unfold card_ok in *;
      rewrite Hid, Hc; auto.
Qed.

Lemma grows_refl a : grows a a.
Proof. unfold grows. split_and!; auto. Qed.

Lemma grows_trans a b c : grows a b -> grows b c -> grows a c.
Proof.
  intros (N1 & E1 & I1 & P1 & C1) (N2 & E2 & I2 & P2 & C2).
  unfold grows. split_and!; try congruence.
  - now transitivity (transactions b).
  - intros T. rewrite C2, C1; auto. now rewrite C1.
Qed.

Lemma account_step_grows a a' : account_step a a' -> grows a a'.
Proof.
  intros (N & E & I & C & T). unfold grows. split_and!; auto.
  - destruct T as [->|(t & _ & ->)]; [reflexivity|now apply prefix_app_r].
  - intros Ht. destruct C as [C|[C _]]; [exact C|congruence].
Qed.

Lemma extends_step w w' : world_step w w' -> extends w w'.
Proof.
  intros [->|acct Hacc _ _ _ _ _ _|i a a' Hi Hstep Hacc _] k b Hk.
  - eauto using grows_refl.
  - exists b. rewrite Hacc. split; [now apply lookup_app_l_Some|apply grows_refl].
  - rewrite Hacc. destruct (decide (k = i)) as [->|Hne].
    + exists a'. rewrite list_lookup_insert_eq by eauto using lookup_lt_Some.
      split; [reflexivity|]. rewrite Hi in Hk. inversion Hk; subst.
      now apply account_step_grows.
    + exists b. rewrite list_lookup_insert_ne by auto. auto using grows_refl.
Qed.

Lemma extends_run cs : forall w, extends w (run w cs).
Proof.
  induction cs as [|c cs IH]; intros w i a Hi; simpl.
  - eauto using grows_refl.
  - destruct (extends_step _ _ (perform_step w c) i a Hi) as (a1 & H1 & G1).
    destruct (IH _ i a1 H1) as (a2 & H2 & G2).
    eauto using grows_trans.
Qed.

Lemma synced_run cs : forall w, run w cs = w \/ synced (run w cs).
Proof.
  induction cs as [|c cs IH]; intros w; simpl; [now left|].
  destruct (IH (perform w c)) as [->|H]; [|now right].
  destruct (perform_step w c) as [->| |]; auto.
Qed.

End Invariants.

(** * Properties of every reachable collection *)

Section Reachable.

Implicit Types (w : World) (a : Account) (cs : list call).

(** X1: in every state reached from the empty collection, the account at
    position [k] (counting from 0) has id [k + 1]: the ids are 1, 2, ... in
    the order of creation, without gap or repetition. *)
Theorem ids_sequential_reachable fs cs k a :
  accounts (run (initial fs) cs) !! k = Some a -> id a = Z.of_nat k + 1.
Proof. apply ids_sequential_run. Qed.

Lemma ids_sequential_reachable_witness :
  accounts household_world !! 1%nat = Some bob /\ id bob = Z.of_nat 1 + 1.
Proof.
  split; [reflexivity|].
  apply (ids_sequential_reachable FileAbsent household 1%nat bob). reflexivity.
Defined.

(** X2: in every state reached from the empty collection, [get_account]
    returns the account stored at position [id - 1], and it returns nothing
    exactly for the ids below 1 or above the number of accounts. *)
Theorem get_account_reachable fs cs aid :
  (forall i a,
     get_account (accounts (run (initial fs) cs)) aid = Some (i, a) <->
     accounts (run (initial fs) cs) !! i = Some a /\ aid = Z.of_nat i + 1) /\
  (get_account (accounts (run (initial fs) cs)) aid = None <->
   aid < 1 \/ Z.of_nat (length (accounts (run (initial fs) cs))) < aid).
Proof.
  pose proof (ids_sequential_run fs cs) as Hw.
  set (w := run (initial fs) cs) in *. split.
  - intros i a. now apply get_account_sequential.
  - rewrite get_account_None, Forall_lookup. split.
    + intros Hnone.
      destruct (decide (aid < 1 \/ Z.of_nat (length (accounts w)) < aid))
        as [|Hin]; [assumption|exfalso].
      destruct (lookup_lt_is_Some_2 (accounts w) (Z.to_nat (aid - 1))) as [a Ha];
        [lia|].
      apply (Hnone _ _ Ha). rewrite (Hw _ _ Ha). lia.
    + intros Hout k a Hk. rewrite (Hw _ _ Hk).
      apply lookup_lt_Some in Hk. lia.
Qed.

(** X3: in every state reached from the empty collection, every stored
    email is in normal form (trimmed and lower-cased) and no two accounts
    have the same email. *)
Theorem emails_unique_reachable fs cs :
  Forall (fun a => lower (strip (email a)) = email a)
         (accounts (run (initial fs) cs)) /\
  NoDup (email <$> accounts (run (initial fs) cs)).
Proof.
  apply (step_invariant emails_unique emails_unique_step).
  split; constructor.
Qed.

(** X4: accounts are never removed, renamed or renumbered, and histories
    only grow at the end: after any run, an account is still at its position
    with the same name, email and id, and its former history is a prefix of
    its history. *)
Theorem history_append_only w cs i a :
  accounts w !! i = Some a ->
  exists a',
    accounts (run w cs) !! i = Some a' /\
    name a' = name a /\ email a' = email a /\ id a' = id a /\
    transactions a `prefix_of` transactions a'.
Proof.
  intros Hi. destruct (extends_run cs w i a Hi) as (a' & Ha' & N & E & I & P & _).
  eauto 10.
Qed.

Lemma history_append_only_witness :
  exists a',
    accounts (run alice_world
                [ValidateTransaction 1 40%float "doctor" "2024-01-01 00:00 UTC";
                 DepositFunds 1 5%float]) !! 0%nat = Some a' /\
    name a' = name alice /\ email a' = email alice /\ id a' = id alice /\
    transactions alice `prefix_of` transactions a'.
Proof.
  apply (history_append_only alice_world _ 0%nat alice). reflexivity.
Defined.

(** X5: a card number, once set, is never changed: after any run, an
    account that had a card has the same card. *)
Theorem card_number_immutable w cs i a :
  accounts w !! i = Some a ->
  truthy (card_number a) = true ->
  exists a',
    accounts (run w cs) !! i = Some a' /\ card_number a' = card_number a.
Proof.
  intros Hi T. destruct (extends_run cs w i a Hi) as (a' & Ha' & _ & _ & _ & _ & C).
  eauto.
Qed.

Lemma card_number_immutable_witness :
  exists a',
    accounts (run household_world [IssueCard 2; DepositFunds 2 5%float]) !! 1%nat
      = Some a' /\
    card_number a' = card_number bob.
Proof.
  apply (card_number_immutable household_world _ 1%nat bob); reflexivity.
Defined.

(** X6: in every state reached from the empty collection, every recorded
    transaction has a status, and it is approved or denied. *)
Theorem histories_decided_reachable fs cs :
  Forall (fun a => Forall decided (transactions a))
         (accounts (run (initial fs) cs)).
Proof.
  apply (step_invariant histories_decided histories_decided_step). constructor.
Qed.

(** X7: every path that changes the collection ends with [save_data]. When
    the data file can be written (it is not in the unreadable condition, and
    persistence succeeds, as the model of [save_data] assumes), after any run
    either nothing changed at all, or the data file holds exactly the
    collection that is in memory. *)
Theorem write_through w cs :
  data_file w <> FileUnreadable ->
  run w cs = w \/
  data_file (run w cs) = FileJson (JList (map account_to_json (accounts (run w cs)))).
Proof. intros _. apply synced_run. Qed.

Lemma write_through_witness :
  run alice_world [IssueCard 7; DepositFunds 1 5%float] = alice_world \/
  data_file (run alice_world [IssueCard 7; DepositFunds 1 5%float])
  = FileJson (JList (map account_to_json
       (accounts (run alice_world [IssueCard 7; DepositFunds 1 5%float])))).
Proof.
  apply (write_through alice_world). vm_compute. discriminate.
Defined.

End Reachable.

(** * Card numbers *)

Section Cards.

Lemma format_04d_inj n m :
  0 <= n -> 0 <= m -> format_04d n = format_04d m -> n = m.
Proof.
  intros Hn Hm E.
  pose proof (format_04d_value n Hn) as H1.
  pose proof (format_04d_value m Hm) as H2.
  rewrite E, H2 in H1. inversion H1. lia.
Qed.

Lemma append_inj_r (p x y : string) : p ++ x = p ++ y -> x = y.
Proof.
  induction p as [|c p IH]; intros H; [exact H|].
  apply IH. now inversion H.
Qed.

(** X8: in every state reached from the empty collection, the card number
    of an account, when it has one, is the one derived from its own id
    ([4000-0000-0000-], then ["0"] characters up to a width of four, then
    the decimal numeral of the id), and no other account of the collection
    has the same card number. *)
Theorem card_numbers_unique fs cs i a c :
  accounts (run (initial fs) cs) !! i = Some a ->
  card_number a = Some c ->
  c = "4000-0000-0000-" ++ format_04d (id a) /\
  (exists pad,
     c = "4000-0000-0000-" ++ pad
           ++ NilZero.string_of_uint (N.to_uint (Z.to_N (id a))) /\
     String.length pad
       = (4 - String.length
                (NilZero.string_of_uint (N.to_uint (Z.to_N (id a)))))%nat /\
     Forall (fun c => c = "0"%char) (list_ascii_of_string pad)) /\
  (forall j b,
     accounts (run (initial fs) cs) !! j = Some b -> i <> j ->
     card_number b <> Some c).
Proof.
  intros Ha Hc.
  pose proof (step_invariant cards_ok cards_ok_step cs (initial fs)
                (Forall_nil_2 _)) as Hok.
  pose proof (Forall_lookup_1 _ _ _ _ Hok Ha) as [Ca|Ca]; [congruence|].
  pose proof (ids_sequential_run fs cs _ _ Ha) as Ia.
  assert (c = "4000-0000-0000-" ++ format_04d (id a)) as Ec by congruence.
  split_and!; [exact Ec| |].
  - destruct (format_04d_decimal (id a)) as (pad & F & L & Z0); [lia|].
    exists pad. rewrite Ec, F. auto.
  - intros j b Hb Hne Hbc.
    pose proof (Forall_lookup_1 _ _ _ _ Hok Hb) as Cb.
    pose proof (ids_sequential_run fs cs _ _ Hb) as Ib.
    destruct Cb as [Cb|Cb]; [congruence|].
    rewrite Hbc, Ec in Cb.
    inversion Cb as [E]. apply append_inj_r in E.
    apply format_04d_inj in E; lia.
Qed.

Lemma card_numbers_unique_witness :
  "4000-0000-0000-0001" = "4000-0000-0000-" ++ format_04d (id alice_with_card) /\
  (exists pad,
     "4000-0000-0000-0001"
       = "4000-0000-0000-" ++ pad
           ++ NilZero.string_of_uint (N.to_uint (Z.to_N (id alice_with_card))) /\
     String.length pad
       = (4 - String.length
                (NilZero.string_of_uint
                   (N.to_uint (Z.to_N (id alice_with_card)))))%nat /\
     Forall (fun c => c = "0"%char) (list_ascii_of_string pad)) /\
  (forall j b,
     accounts (run (initial FileAbsent) household) !! j = Some b -> 0%nat <> j ->
     card_number b <> Some "4000-0000-0000-0001").
Proof.
  apply (card_numbers_unique FileAbsent household 0%nat alice_with_card
           "4000-0000-0000-0001"); reflexivity.
Defined.

End Cards.

(** * More on the transaction validator *)

Section ValidatorMore.

Implicit Types (w : World) (a : Account) (i : nat) (aid : Z) (amt : float).

Local Open Scope float_scope.

(** X9: for an account of the collection and a category of the allow-list,
    an amount greater than the balance is refused: [validate_transaction]
    returns ["denied"], appends one record of status denied and leaves the
    balance as it was. *)
Theorem validate_transaction_insufficient_funds w aid amt etype now i a :
  get_account (accounts w) aid = Some (i, a) ->
  lower (strip etype) ∈ ALLOWED_EXPENSES ->
  (balance a <? amt) = true ->
  exists a' w',
    validate_transaction w aid amt etype now = ("denied", w') /\
    accounts w' = <[i := a']> (accounts w) /\
    get_account (accounts w') aid = Some (i, a') /\
    transactions a' =
      (transactions a ++
        [{| type := etype; amount := amt; status := Some "denied"; date := now |}])%list /\
    balance a' = balance a /\
    same_holder a a'.
Proof.
  intros H Hin Hlt. unfold validate_transaction. rewrite H.
  rewrite bool_decide_eq_true_2 by exact Hin. simpl negb. cbv iota.
  rewrite Hlt.
  eexists _, _. split; [reflexivity|].
  destruct (recorded w aid i a
    (append_transaction (set_status "denied"
       {| type := etype; amount := amt; status := None; date := now |}) a) H eq_refl)
    as [E1 E2].
  split_and!; [exact E1|exact E2|reflexivity|reflexivity|].
  repeat split.
Qed.

Lemma validate_transaction_insufficient_funds_witness :
  exists a' w',
    validate_transaction alice_world 1 1000 "dental" "2024-01-01 00:00 UTC"
      = ("denied", w') /\
    accounts w' = <[0%nat := a']> (accounts alice_world) /\
    get_account (accounts w') 1 = Some (0%nat, a') /\
    transactions a' =
      (transactions alice ++
        [{| type := "dental"; amount := 1000; status := Some "denied";
            date := "2024-01-01 00:00 UTC" |}])%list /\
    balance a' = balance alice /\
    same_holder alice a'.
Proof.
  apply (validate_transaction_insufficient_funds alice_world 1 1000 "dental"
           "2024-01-01 00:00 UTC" 0%nat alice).
  - reflexivity.
  - apply (bool_decide_unpack _). vm_compute. exact I.
  - reflexivity.
Defined.

Lemma balances_insert (l : list Account) i a a' :
  l !! i = Some a -> balance a' = balance a ->
  balance <$> <[i := a']> l = balance <$> l.
Proof.
  intros Hi Hb. rewrite list_fmap_insert, Hb. apply list_insert_id.
  now rewrite list_lookup_fmap, Hi.
Qed.

(** X10: the decision of [validate_transaction], for a category in ASCII
    text. The result is ["approved"] or ["denied"]; it is ["approved"]
    exactly when the account exists, the normalised category is in the
    allow-list and the amount is not greater than the balance; and a denial
    changes no balance of the collection. *)
Theorem validate_transaction_decision w aid amt etype now :
  ascii_text etype = true ->
  (fst (validate_transaction w aid amt etype now) = "approved" \/
   fst (validate_transaction w aid amt etype now) = "denied") /\
  (fst (validate_transaction w aid amt etype now) = "approved" <->
   exists i a,
     get_account (accounts w) aid = Some (i, a) /\
     lower (strip etype) ∈ ALLOWED_EXPENSES /\
     (balance a <? amt) = false) /\
  (fst (validate_transaction w aid amt etype now) = "denied" ->
   balance <$> accounts (snd (validate_transaction w aid amt etype now))
   = balance <$> accounts w).
Proof.
  intros _. unfold validate_transaction.
  destruct (get_account (accounts w) aid) as [[i a]|] eqn:H.
  2: { split_and!; [now right| |reflexivity].
       split; [discriminate|]. intros (i & a & Hs & _). discriminate Hs. }
  pose proof (proj1 (get_account_Some _ _ _ _ H)) as Hi.
  case_bool_decide as Hin; simpl negb; cbv iota.
  - destruct (balance a <? amt) eqn:Hlt; simpl fst; simpl snd.
    + split_and!; [now right| |].
      * split; [discriminate|].
        intros (j & b & Hs & _ & Hb). congruence.
      * intros _. now apply (balances_insert _ _ a).
    + split_and!; [now left| |discriminate].
      split; [eauto 6|reflexivity].
  - simpl fst; simpl snd. split_and!; [now right| |].
    + split; [discriminate|]. intros (j & b & _ & Hs & _). contradiction.
    + intros _. now apply (balances_insert _ _ a).
Qed.

Lemma validate_transaction_decision_witness :
  (fst (validate_transaction alice_world 1 40 " Doctor " "2024-01-01 00:00 UTC")
     = "approved" \/
   fst (validate_transaction alice_world 1 40 " Doctor " "2024-01-01 00:00 UTC")
     = "denied") /\
  (fst (validate_transaction alice_world 1 40 " Doctor " "2024-01-01 00:00 UTC")
     = "approved" <->
   exists i a,
     get_account (accounts alice_world) 1 = Some (i, a) /\
     lower (strip " Doctor ") ∈ ALLOWED_EXPENSES /\
     (balance a <? 40) = false) /\
  (fst (validate_transaction alice_world 1 40 " Doctor " "2024-01-01 00:00 UTC")
     = "denied" ->
   balance <$> accounts (snd (validate_transaction alice_world 1 40 " Doctor "
                                "2024-01-01 00:00 UTC"))
   = balance <$> accounts alice_world).
Proof.
  apply (validate_transaction_decision alice_world 1 40 " Doctor "
           "2024-01-01 00:00 UTC").
  reflexivity.
Defined.

(** NaN on the specification side. *)
Lemma is_nan_spec x : is_nan x = true <-> Prim2SF x = S754_nan.
Proof.
  unfold is_nan. rewrite FloatAxioms.eqb_spec.
  destruct (Prim2SF x) as [s|[]| |[] m e]; unfold SFeqb; simpl;
    rewrite ?Z.compare_refl, ?Pos.compare_cont_refl; simpl;
    split; congruence.
Qed.

Lemma ltb_nan b x : is_nan b = true \/ is_nan x = true -> (b <? x) = false.
Proof.
  rewrite !is_nan_spec, FloatAxioms.ltb_spec. unfold SFltb.
  intros [->| ->]; [reflexivity|]. now destruct (Prim2SF b).
Qed.

Lemma sub_nan b x : is_nan b = true \/ is_nan x = true -> is_nan (b - x) = true.
Proof.
  rewrite !is_nan_spec, FloatAxioms.sub_spec. unfold SF64sub.
  intros [->| ->]; [reflexivity|]. now destruct (Prim2SF b).
Qed.

Lemma add_nan b x : is_nan b = true \/ is_nan x = true -> is_nan (b + x) = true.
Proof.
  rewrite !is_nan_spec, FloatAxioms.add_spec. unfold SF64add.
  intros [->| ->]; [reflexivity|]. now destruct (Prim2SF b).
Qed.

(** X11: NaN passes the balance check. For an account of the collection and
    a category of the allow-list, a transaction is approved whenever the
    amount or the balance is NaN, and the balance is NaN afterwards. *)
Theorem validate_transaction_nan w aid amt etype now i a :
  get_account (accounts w) aid = Some (i, a) ->
  lower (strip etype) ∈ ALLOWED_EXPENSES ->
  is_nan (balance a) = true \/ is_nan amt = true ->
  exists a' w',
    validate_transaction w aid amt etype now = ("approved", w') /\
    accounts w' = <[i := a']> (accounts w) /\
    is_nan (balance a') = true.
Proof.
  intros H Hin Hnan. unfold validate_transaction. rewrite H.
  rewrite bool_decide_eq_true_2 by exact Hin. simpl negb. cbv iota.
  rewrite (ltb_nan _ _ Hnan).
  eexists _, _. split_and!; [reflexivity|reflexivity|].
  simpl. now apply sub_nan.
Qed.

Lemma validate_transaction_nan_witness :
  exists a' w',
    validate_transaction alice_world 1 nan "doctor" "2024-01-01 00:00 UTC"
      = ("approved", w') /\
    accounts w' = <[0%nat := a']> (accounts alice_world) /\
    is_nan (balance a') = true.
Proof.
  apply (validate_transaction_nan alice_world 1 nan "doctor"
           "2024-01-01 00:00 UTC" 0%nat alice).
  - reflexivity.
  - apply (bool_decide_unpack _). vm_compute. exact I.
  - right. reflexivity.
Defined.

(** X12: a deposit of NaN switches the balance check off: after it, every
    transaction of that account in a category of the allow-list is approved,
    whatever its amount. *)
Theorem nan_deposit_disables_balance_check w aid x amt etype now i a :
  get_account (accounts w) aid = Some (i, a) ->
  is_nan x = true ->
  lower (strip etype) ∈ ALLOWED_EXPENSES ->
  fst (validate_transaction (snd (deposit_funds w aid x)) aid amt etype now)
  = "approved".
Proof.
  intros H Hx Hin. unfold deposit_funds. rewrite H. simpl snd.
  destruct (recorded w aid i a (set_balance (balance a + x) a) H eq_refl)
    as [_ E].
  unfold validate_transaction. rewrite E.
  rewrite bool_decide_eq_true_2 by exact Hin. simpl negb. cbv iota.
  simpl balance. rewrite ltb_nan; [reflexivity|].
  left. apply add_nan. now right.
Qed.

Lemma nan_deposit_disables_balance_check_witness :
  fst (validate_transaction (snd (deposit_funds alice_world 1 nan)) 1
         1000000000 "doctor" "2024-01-01 00:00 UTC")
  = "approved".
Proof.
  apply (nan_deposit_disables_balance_check alice_world 1 nan 1000000000
           "doctor" "2024-01-01 00:00 UTC" 0%nat alice).
  - reflexivity.
  - reflexivity.
  - apply (bool_decide_unpack _). vm_compute. exact I.
Defined.

End ValidatorMore.

(** * How the operations compose *)

Section Composition.

Implicit Types (w : World) (a : Account) (i : nat) (aid : Z).

(** X13: creating an account and looking it up. After a successful
    [create_an_account], [get_account_by_email] finds the new account, at
    the end of the collection, under every spelling of the email that has
    the same normal form; [get_account] finds it under its id provided no
    older account carries that id. *)
Theorem create_an_account_then_lookup w name0 email0 acct w' email1 :
  create_an_account w name0 email0 = (Some acct, w') ->
  lower (strip email1) = lower (strip email0) ->
  get_account_by_email (accounts w') email1 = Some (length (accounts w), acct) /\
  (Forall (fun a => id a <> id acct) (accounts w) ->
   get_account (accounts w') (id acct) = Some (length (accounts w), acct)).
Proof.
  intros Hc He. unfold create_an_account in Hc.
  destruct (get_account_by_email (accounts w) (lower (strip email0)))
    as [[j b]|] eqn:Hfind; [discriminate Hc|].
  inversion Hc as [[Ha Hw]]. clear Hc. simpl accounts.
  set (new := {| name := strip name0; email := lower (strip email0);
                 id := Z.of_nat (length (accounts w)) + 1; balance := 0%float;
                 card_number := None; transactions := [] |}).
  split.
  - unfold get_account_by_email in *. rewrite He.
    rewrite normalize_idem in Hfind.
    rewrite list_find_app_r by exact Hfind. simpl.
    rewrite decide_True by apply normalize_idem. reflexivity.
  - intros Hid. unfold get_account.
    rewrite list_find_app_r by (now apply list_find_None).
    simpl. rewrite decide_True by reflexivity. reflexivity.
Qed.

Lemma create_an_account_then_lookup_witness :
  get_account_by_email
    (accounts (snd (create_an_account alice_world "Bob" " Bob@X.com ")))
    "BOB@x.com  "
  = Some (length (accounts alice_world),
          {| name := "Bob"; email := "bob@x.com"; id := 2; balance := 0%float;
             card_number := None; transactions := [] |}) /\
  (Forall (fun a => id a <> 2) (accounts alice_world) ->
   get_account (accounts (snd (create_an_account alice_world "Bob" " Bob@X.com "))) 2
   = Some (length (accounts alice_world),
           {| name := "Bob"; email := "bob@x.com"; id := 2; balance := 0%float;
              card_number := None; transactions := [] |})).
Proof.
  apply (create_an_account_then_lookup alice_world "Bob" " Bob@X.com "
           {| name := "Bob"; email := "bob@x.com"; id := 2; balance := 0%float;
              card_number := None; transactions := [] |}
           (snd (create_an_account alice_world "Bob" " Bob@X.com "))
           "BOB@x.com  "); reflexivity.
Defined.

(** A write that keeps the id of the account it overwrites does not move
    any lookup by id. *)
Lemma get_account_insert_same_id accts j b b' aid :
  accts !! j = Some b -> id b' = id b ->
  get_account (<[j := b']> accts) aid =
  (fun p => (fst p, if decide (fst p = j) then b' else snd p))
    <$> get_account accts aid.
Proof.
  intros Hj Hid. unfold get_account.
  destruct (list_find (fun a => id a = aid) accts) as [[i a]|] eqn:H; simpl.
  - apply list_find_Some in H as (Hi & Ha & Hleast).
    apply list_find_Some. split_and!.
    + destruct (decide (i = j)) as [->|Hne].
      * apply list_lookup_insert_eq. eauto using lookup_lt_Some.
      * now rewrite list_lookup_insert_ne.
    + destruct (decide (i = j)) as [->|Hne]; [|exact Ha]. congruence.
    + intros k y Hk Hlt.
      apply list_lookup_insert_Some in Hk as [(<- & <- & _)|[_ Hk]]; [|eauto].
      rewrite Hid. eauto.
  - apply list_find_None. apply list_find_None in H.
    apply Forall_insert; [exact H|].
    rewrite Hid. exact (Forall_lookup_1 _ _ _ _ H Hj).
Qed.

Lemma deposit_funds_world w aid x :
  snd (deposit_funds w aid x) =
  match get_account (accounts w) aid with
  | Some (i, a) => save_data (store w i (set_balance (balance a + x) a))
  | None => w
  end.
Proof.
  unfold deposit_funds. now destruct (get_account (accounts w) aid) as [[i a]|].
Qed.

Lemma deposit_funds_other w aid1 aid2 x :
  aid1 <> aid2 ->
  get_account (accounts (snd (deposit_funds w aid1 x))) aid2
  = get_account (accounts w) aid2.
Proof.
  intros Hne. rewrite deposit_funds_world.
  destruct (get_account (accounts w) aid1) as [[i a]|] eqn:H1; [|reflexivity].
  apply get_account_Some in H1 as [Hi Hid]. simpl accounts.
  rewrite (get_account_insert_same_id _ i a) by auto.
  destruct (get_account (accounts w) aid2) as [[j b]|] eqn:H2; [|reflexivity].
  apply get_account_Some in H2 as [Hj Hjd]. simpl.
  rewrite decide_False; [reflexivity|]. intros ->. congruence.
Qed.

(** X14: deposits on two different account ids commute: made in either
    order, they leave the same collection and the same data file. *)
Theorem deposit_funds_commute w aid1 aid2 x y :
  aid1 <> aid2 ->
  snd (deposit_funds (snd (deposit_funds w aid1 x)) aid2 y)
  = snd (deposit_funds (snd (deposit_funds w aid2 y)) aid1 x).
Proof.
  intros Hne.
  rewrite (deposit_funds_world (snd (deposit_funds w aid1 x)) aid2).
  rewrite (deposit_funds_world (snd (deposit_funds w aid2 y)) aid1).
  rewrite !deposit_funds_other by auto.
  rewrite !deposit_funds_world.
  destruct (get_account (accounts w) aid1) as [[i a]|] eqn:H1;
    destruct (get_account (accounts w) aid2) as [[j b]|] eqn:H2;
    try reflexivity.
  apply get_account_Some in H1 as [Hi Hid].
  apply get_account_Some in H2 as [Hj Hjd].
  assert (i <> j) as Hij by (intros ->; congruence).
  unfold save_data, store. simpl.
  now rewrite (list_insert_insert_ne _ i j) by exact Hij.
Qed.

Lemma deposit_funds_commute_witness :
  snd (deposit_funds (snd (deposit_funds household_world 1 10%float)) 2 20%float)
  = snd (deposit_funds (snd (deposit_funds household_world 2 20%float)) 1 10%float).
Proof.
  apply (deposit_funds_commute household_world 1 2 10%float 20%float).
  discriminate.
Defined.

End Composition.

(** * The routes *)

Section Routes.

Implicit Types (B : Builtins) (w : World) (r : request) (a : Account).

(** A request is at most one call of the business logic. *)
Lemma handle_call B w r :
  snd (handle B w r) = w \/ exists c, snd (handle B w r) = perform w c.
Proof.
  destruct r as [form|form|form|form|form now]; simpl.
  - unfold open_account_route.
    destruct (get_account_by_email _ _) as [[j b]|]; now left.
  - unfold create_account_route.
    destruct (_ || _); [now left|].
    set (n := strip (default "" (form !! "name"))).
    set (e := strip (default "" (form !! "email"))).
    right. exists (CreateAccount n e). simpl.
    now destruct (create_an_account w n e) as [[acct|] w'].
  - unfold deposit_route.
    destruct (_ ≫= _) as [[aid x]|]; [|now left].
    right. exists (DepositFunds aid x). simpl.
    now destruct (deposit_funds w aid x) as [res w'].
  - unfold issue_card_route.
    destruct (_ ≫= _) as [aid|]; [|now left].
    right. exists (IssueCard aid). simpl.
    now destruct (issue_card w aid) as [res w'].
  - unfold transaction_route.
    destruct (_ ≫= _) as [[[aid x] t]|]; [|now left].
    right. exists (ValidateTransaction aid x t now). simpl.
    now destruct (validate_transaction w aid x t now) as [res w'].
Qed.

(** X15: a session of requests is a run of the business logic with at most
    one call per request, so that what holds after every run holds after
    every session. *)
Theorem serve_is_run B w rs :
  exists cs, serve B w rs = run w cs /\ (length cs <= length rs)%nat.
Proof.
  revert w. induction rs as [|r rs IH]; intros w; simpl.
  - exists []. split; [reflexivity|simpl; lia].
  - destruct (IH (snd (handle B w r))) as (cs & Hcs & Hlen).
    destruct (handle_call B w r) as [E|[c E]].
    + exists cs. rewrite Hcs, E. split; [reflexivity|lia].
    + exists (c :: cs). rewrite Hcs, E. split; [reflexivity|simpl; lia].
Qed.

Lemma lower_nonempty s : s <> "" -> lower s <> "".
Proof. destruct s; [congruence|discriminate]. Qed.

Lemma holders_named_perform w c :
  (forall n e, c = CreateAccount n e -> strip n <> "" /\ lower (strip e) <> "") ->
  holders_named w -> holders_named (perform w c).
Proof.
  unfold holders_named. intros Hc Hw.
  destruct c as [n e|aid x|aid|aid x t now]; simpl.
  - unfold create_an_account.
    destruct (get_account_by_email _ _); simpl; [exact Hw|].
    apply Forall_app. split; [exact Hw|].
    constructor; [|constructor]. simpl. now apply Hc.
  - unfold deposit_funds.
    destruct (get_account _ _) as [[i a]|] eqn:H; simpl; [|exact Hw].
    apply get_account_Some in H as [H _].
    apply Forall_insert; [exact Hw|]. exact (Forall_lookup_1 _ _ _ _ Hw H).
  - unfold issue_card.
    destruct (get_account _ _) as [[i a]|] eqn:H; simpl; [|exact Hw].
    destruct (truthy _); simpl; [exact Hw|].
    apply get_account_Some in H as [H _].
    apply Forall_insert; [exact Hw|]. exact (Forall_lookup_1 _ _ _ _ Hw H).
  - unfold validate_transaction.
    destruct (get_account _ _) as [[i a]|] eqn:H; simpl; [|exact Hw].
    apply get_account_Some in H as [H _].
    destruct (negb _); [|destruct (balance a <? x)%float]; simpl;
      (apply Forall_insert; [exact Hw|]); exact (Forall_lookup_1 _ _ _ _ Hw H).
Qed.

Lemma holders_named_handle B w r :
  holders_named w -> holders_named (snd (handle B w r)).
Proof.
  intros Hw. destruct r as [form|form|form|form|form now]; simpl.
  - unfold open_account_route.
    now destruct (get_account_by_email _ _) as [[j b]|].
  - unfold create_account_route.
    set (n := strip (default "" (form !! "name"))).
    set (e := strip (default "" (form !! "email"))).
    destruct (bool_decide (n = "")) eqn:Hn; [exact Hw|].
    destruct (bool_decide (e = "")) eqn:He; [exact Hw|]. simpl orb. cbv iota.
    apply bool_decide_eq_false in Hn, He.
    pose proof (holders_named_perform w (CreateAccount n e)) as Hp.
    simpl in Hp. destruct (create_an_account w n e) as [[acct|] w'];
      simpl in *; apply Hp; auto;
      intros n' e' E; inversion E; subst n' e'; unfold n, e;
      rewrite !strip_idem; auto using lower_nonempty.
  - unfold deposit_route.
    destruct (_ ≫= _) as [[aid x]|]; [|exact Hw].
    pose proof (holders_named_perform w (DepositFunds aid x)) as Hp.
    simpl in Hp. destruct (deposit_funds w aid x) as [res w'].
    apply Hp; [discriminate|exact Hw].
  - unfold issue_card_route.
    destruct (_ ≫= _) as [aid|]; [|exact Hw].
    pose proof (holders_named_perform w (IssueCard aid)) as Hp.
    simpl in Hp. destruct (issue_card w aid) as [res w'].
    apply Hp; [discriminate|exact Hw].
  - unfold transaction_route.
    destruct (_ ≫= _) as [[[aid x] t]|]; [|exact Hw].
    pose proof (holders_named_perform w (ValidateTransaction aid x t now)) as Hp.
    simpl in Hp. destruct (validate_transaction w aid x t now) as [res w'].
    apply Hp; [discriminate|exact Hw].
Qed.

(** X16: the guard of [create_account_route] keeps blank holders out: after
    any session of requests started on the empty collection, every account
    has a non-empty name and a non-empty email. *)
Theorem holders_named_served B fs rs :
  Forall (fun a => name a <> "" /\ email a <> "")
         (accounts (serve B (initial fs) rs)).
Proof.
  change (holders_named (serve B (initial fs) rs)).
  assert (holders_named (initial fs)) as H0 by constructor.
  revert H0. generalize (initial fs).
  induction rs as [|r rs IH]; intros w Hw; simpl; [exact Hw|].
  apply IH. now apply holders_named_handle.
Qed.

(** X17: [open_account_route] never changes the state, and it opens a
    registered account under every spelling of its email: if the submitted
    field has the normal form of an email that [get_account_by_email] finds,
    the answer is a redirect to the page of that account, with no message. *)
Theorem open_account_route_insensitive w form email1 i a :
  get_account_by_email (accounts w) email1 = Some (i, a) ->
  lower (strip (default "" (form !! "email"))) = lower (strip email1) ->
  open_account_route w form
  = ({| flashed := []; location := AccountPage (id a) |}, w).
Proof.
  intros H He. unfold open_account_route.
  assert (get_account_by_email (accounts w) (strip (default "" (form !! "email")))
          = Some (i, a)) as ->; [|reflexivity].
  unfold get_account_by_email in *. now rewrite strip_idem, He.
Qed.

Lemma open_account_route_insensitive_witness :
  open_account_route alice_world {[ "email" := "  ALICE@x.com " ]}
  = ({| flashed := []; location := AccountPage (id alice) |}, alice_world).
Proof.
  apply (open_account_route_insensitive alice_world
           {[ "email" := "  ALICE@x.com " ]} "alice@x.com" 0%nat alice);
    reflexivity.
Defined.

(** X18: [transaction_route] reports an unknown account as a denial: when
    the fields parse and no account has the submitted id, the message
    flashed is the one of a denied transaction, the redirect goes to the page
    of that id and the state is unchanged. *)
Theorem transaction_route_unknown_account B w form now aid amt etype :
  form !! "account_id" ≫= py_int B = Some aid ->
  form !! "amount" ≫= py_float B = Some amt ->
  form !! "etype" = Some etype ->
  get_account (accounts w) aid = None ->
  transaction_route B w form now
  = ({| flashed := ["❌ denied: $" ++ format_2f B amt ++ " (" ++ etype ++ ")"];
        location := AccountPage aid |}, w).
Proof.
  intros Ha Hx Ht Hnone. unfold transaction_route.
  rewrite Ha. simpl. rewrite Hx. simpl. rewrite Ht. simpl.
  unfold validate_transaction. rewrite Hnone. reflexivity.
Qed.

Lemma transaction_route_unknown_account_witness :
  transaction_route example_builtins alice_world
    {[ "account_id" := "7"; "amount" := "5"; "etype" := "doctor" ]}
    "2024-01-01 00:00 UTC"
  = ({| flashed := ["❌ denied: $" ++ format_2f example_builtins 5%float
                      ++ " (" ++ "doctor" ++ ")"];
        location := AccountPage 7 |}, alice_world).
Proof.
  apply (transaction_route_unknown_account example_builtins alice_world
           {[ "account_id" := "7"; "amount" := "5"; "etype" := "doctor" ]}
           "2024-01-01 00:00 UTC" 7 5%float "doctor");
    vm_compute; reflexivity.
Defined.

End Routes.

(** * Isolation of the accounts *)

Section Isolation.

(** X19: a call touches at most one account that exists: there is a position
    such that the accounts at all other positions are, after the call, what
    they were before it. *)
Theorem perform_touches_one (w : World) (c : call) :
  exists i, forall j (a : Account),
    j <> i -> accounts w !! j = Some a -> accounts (perform w c) !! j = Some a.
Proof.
  destruct (perform_step w c) as [->|acct Hacc _ _ _ _ _ _|i a a' Hi _ Hacc _].
  - exists 0%nat. auto.
  - exists (length (accounts w)). intros j b _ Hj.
    rewrite Hacc. now apply lookup_app_l_Some.
  - exists i. intros j b Hne Hj. rewrite Hacc.
    now rewrite list_lookup_insert_ne by auto.
Qed.

End Isolation.
